(** * Task Priority Scorer: a shallow embedding of [priority_scorer.py]

    The development follows the Python module top to bottom:

    - [PyFloat]: Python's [float] (IEEE 754 binary64, round to nearest,
      ties to even), with the conversions and the [round] builtin the
      scorer uses.  Every operation is "compute the exact rational, then
      round it", written over [Z] and [Q].
    - [PyDate]: [datetime.strptime(s, "%Y-%m-%d")] and the day count of a
      [timedelta].
    - the interpreter state ([world]): the heap of [Task] objects, the
      scorer's [self.tasks], standard output, the process clock and the
      files the loader may open; a small state and exception monad, and
      its partial version for the loader, which can build objects that
      the typed [Task] record has no place for.
    - [TaskPriorityScorer]'s methods, one definition per method.
    - the properties. *)

From Stdlib Require Import ZArith QArith Lia Lqa Bool List String Ascii.
From Stdlib Require Import Setoid Permutation Sorted DecimalString.
Import ListNotations.

Local Open Scope Z_scope.

(* ================================================================== *)
(** ** Exceptions *)

(** The exception classes that the code under study can meet, and the
    part of Python's class hierarchy an [except] clause consults. *)
Inductive exn : Type :=
| ValueError
| JSONDecodeError
| UnicodeDecodeError
| TypeError
| AttributeError
| OSError
| FileNotFoundError
| PermissionError
| ArithmeticError
| OverflowError
| ZeroDivisionError.

Definition exn_eqb (a b : exn) : bool :=
  match a, b with
  | ValueError, ValueError | JSONDecodeError, JSONDecodeError
  | UnicodeDecodeError, UnicodeDecodeError | TypeError, TypeError
  | AttributeError, AttributeError | OSError, OSError
  | FileNotFoundError, FileNotFoundError
  | PermissionError, PermissionError
  | ArithmeticError, ArithmeticError | OverflowError, OverflowError
  | ZeroDivisionError, ZeroDivisionError => true
  | _, _ => false
  end.

(** The direct base class, up to [Exception]. *)
Definition base (e : exn) : option exn :=
  match e with
  | JSONDecodeError | UnicodeDecodeError => Some ValueError
  | FileNotFoundError | PermissionError => Some OSError
  | OverflowError | ZeroDivisionError => Some ArithmeticError
  | _ => None
  end.

(** [isinstance e cls]: what [except cls:] tests. *)
Definition isinstance (e cls : exn) : bool :=
  exn_eqb e cls
  || match base e with Some b => exn_eqb b cls | None => false end.

(** The outcome of evaluating an expression: a value or a raised
    exception. *)
Inductive result (A : Type) : Type :=
| Ok (a : A)
| Raise (e : exn).
Arguments Ok {A} a.
Arguments Raise {A} e.

(* ================================================================== *)
(** ** Python floats *)

Module PyFloat.

(** A float is a finite binary64 value, given by the rational it denotes
    (always in lowest terms, so that equal values are equal terms), an
    infinity, or NaN.  The two zeros are one value here: no operation of
    the scorer tells them apart ([==] and [<] do not, and nothing divides
    by a float zero). *)
Inductive float : Type :=
| Fin (q : Q)
| Inf (negative : bool)
| NaN.

(** [floor (log2 (n / d))] for [0 < n] and [0 < d]. *)
Definition ilog2_ratio (n d : Z) : Z :=
  let l := Z.log2 n - Z.log2 d in
  if 0 <=? l
  then (if d * 2 ^ l <=? n then l else l - 1)
  else (if d <=? n * 2 ^ (- l) then l else l - 1).

(** The integer nearest to [n / d], ties to the even one ([0 < d]). *)
Definition div_half_even (n d : Z) : Z :=
  let q := n / d in
  let r := n mod d in
  match 2 * r ?= d with
  | Lt => q
  | Gt => q + 1
  | Eq => if Z.even q then q else q + 1
  end.

(** Rounding of the positive rational [a / d] to binary64: the exponent
    of the last place is [e] (at least [-1074], the subnormal spacing),
    the significand [m] has at most 53 bits.  [None] is overflow: the
    rounded value would be [2 ^ 1024] or more. *)
Definition round_pos (a d : Z) : option Q :=
  let e := Z.max (ilog2_ratio a d - 52) (-1074) in
  if 0 <=? e
  then
    let m := div_half_even a (d * 2 ^ e) in
    if 2 ^ 1024 <=? m * 2 ^ e then None else Some (inject_Z (m * 2 ^ e))
  else
    let m := div_half_even (a * 2 ^ (- e)) d in
    Some (Qred (Qmake m (Z.to_pos (2 ^ (- e))))).

(** Rounding of any rational; [inl negative] is overflow with that sign. *)
Definition round_Q (x : Q) : bool + Q :=
  let n := Qnum x in
  let d := Zpos (Qden x) in
  if n =? 0 then inr 0%Q
  else
    match round_pos (Z.abs n) d with
    | None => inl (n <? 0)
    | Some v => inr (if n <? 0 then Qopp v else v)
    end.

(** Float arithmetic never raises on overflow: it returns an infinity. *)
Definition of_Q (x : Q) : float :=
  match round_Q x with
  | inl s => Inf s
  | inr v => Fin v
  end.

(** A float literal of the source text ([0.4], [10.0], ...): the double
    nearest to the decimal. *)
Definition literal (n : Z) (d : positive) : float := of_Q (Qmake n d).

Definition fadd (x y : float) : float :=
  match x, y with
  | NaN, _ | _, NaN => NaN
  | Inf s, Inf s' => if Bool.eqb s s' then Inf s else NaN
  | Inf s, Fin _ | Fin _, Inf s => Inf s
  | Fin a, Fin b => of_Q (a + b)
  end.

Definition Qneg (a : Q) : bool := Qnum a <? 0.
Definition Qzero (a : Q) : bool := Qnum a =? 0.

Definition fmul (x y : float) : float :=
  match x, y with
  | NaN, _ | _, NaN => NaN
  | Inf s, Inf s' => Inf (xorb s s')
  | Inf s, Fin a | Fin a, Inf s =>
      if Qzero a then NaN else Inf (xorb s (Qneg a))
  | Fin a, Fin b => of_Q (a * b)
  end.

(** [x < y], [x <= y], [x >= y] and [x == y] on floats; every comparison
    with NaN is false. *)
Definition compare (x y : float) : option comparison :=
  match x, y with
  | NaN, _ | _, NaN => None
  | Fin a, Fin b => Some (a ?= b)%Q
  | Fin _, Inf s => Some (if s then Gt else Lt)
  | Inf s, Fin _ => Some (if s then Lt else Gt)
  | Inf s, Inf s' =>
      Some (if Bool.eqb s s' then Eq else if s then Lt else Gt)
  end.

Definition flt (x y : float) : bool :=
  match compare x y with Some Lt => true | _ => false end.
Definition fle (x y : float) : bool :=
  match compare x y with Some Lt | Some Eq => true | _ => false end.
Definition fge (x y : float) : bool := fle y x.
Definition fgt (x y : float) : bool := flt y x.
Definition feq (x y : float) : bool :=
  match compare x y with Some Eq => true | _ => false end.

Definition is_nan (x : float) : bool :=
  match x with NaN => true | _ => false end.

(** [float(n)] for a Python [int], as the mixed operators [int * float],
    [int + float] and [float / int] apply it to their [int] operand:
    correctly rounded, and [OverflowError] when [n] is too large. *)
Definition of_int (n : Z) : result float :=
  match round_Q (inject_Z n) with
  | inl _ => Raise OverflowError
  | inr v => Ok (Fin v)
  end.

(** [n * w] with [n : int] and [w : float]. *)
Definition int_mul (n : Z) (w : float) : result float :=
  match of_int n with
  | Ok x => Ok (fmul x w)
  | Raise e => Raise e
  end.

(** [x / y] on floats: a zero divisor raises, whatever [x] is. *)
Definition fdiv (x y : float) : result float :=
  match y with
  | Fin b =>
      if Qzero b then Raise ZeroDivisionError
      else match x with
           | Fin a => Ok (of_Q (a / b))
           | Inf s => Ok (Inf (xorb s (Qneg b)))
           | NaN => Ok NaN
           end
  | Inf _ =>
      match x with
      | Fin _ => Ok (Fin 0)
      | _ => Ok NaN
      end
  | NaN => Ok NaN
  end.

(** [x / n] with [x : float] and [n : int]. *)
Definition div_int (x : float) (n : Z) : result float :=
  match of_int n with
  | Ok y => fdiv x y
  | Raise e => Raise e
  end.

(** [a / b] on two Python [int]s (true division): the correctly rounded
    quotient; [OverflowError] when it is too large for a float. *)
Definition int_true_div (a b : Z) : result float :=
  if b =? 0 then Raise ZeroDivisionError
  else
    match round_Q (Qmake (a * Z.sgn b) (Z.to_pos (Z.abs b))) with
    | inl _ => Raise OverflowError
    | inr v => Ok (Fin v)
    end.

(** [round(x, ndigits)] for [ndigits >= 0], as CPython computes it: the
    exact value of [x] is rounded to [ndigits] decimals, ties to even,
    and that decimal is converted back to the nearest double.  Infinities
    and NaN are returned as they are. *)
Definition round (x : float) (ndigits : nat) : result float :=
  match x with
  | Fin q =>
      let scale := 10 ^ Z.of_nat ndigits in
      let k := div_half_even (Qnum q * scale) (Zpos (Qden q)) in
      match round_Q (Qmake k (Z.to_pos scale)) with
      | inl _ => Raise OverflowError
      | inr v => Ok (Fin v)
      end
  | _ => Ok x
  end.

(** [sum(xs)] on a non-empty list of floats: the accumulator starts at
    the [int] 0 and the items are added from left to right (the plain
    loop of CPython up to 3.11; later versions compensate the rounding
    errors of the partial sums). *)
Definition sum (xs : list float) : float :=
  fold_left fadd xs (Fin 0).

(** [max(xs)] and [min(xs)]: the first item that no later item beats. *)
Definition max_from (x : float) (xs : list float) : float :=
  fold_left (fun best y => if fgt y best then y else best) xs x.
Definition min_from (x : float) (xs : list float) : float :=
  fold_left (fun best y => if flt y best then y else best) xs x.

End PyFloat.

(* ================================================================== *)
(** ** Dates *)

Module PyDate.

(** A [datetime] is the number of microseconds since the midnight that
    begins proleptic Gregorian ordinal 0 (so ordinal 1, 0001-01-01, begins
    at [day_us]).  Subtraction of two datetimes is then subtraction of
    integers. *)
Definition datetime : Type := Z.

Definition day_us : Z := 86400 * 1000000.

(** [datetime.date()] as an ordinal, and the time of day in microseconds. *)
Definition ordinal_of (t : datetime) : Z := t / day_us.
Definition time_of_day (t : datetime) : Z := t mod day_us.

(** [timedelta.days]: a timedelta is normalised so that its seconds and
    microseconds are not negative; the day count is the floor. *)
Definition timedelta_days (delta : Z) : Z := delta / day_us.

Definition is_leap (year : Z) : bool :=
  (year mod 4 =? 0) && (negb (year mod 100 =? 0) || (year mod 400 =? 0)).

Definition days_in_month (year month : Z) : Z :=
  if month =? 2 then (if is_leap year then 29 else 28)
  else if (month =? 4) || (month =? 6) || (month =? 9) || (month =? 11)
       then 30 else 31.

Definition days_before_year (year : Z) : Z :=
  let y := year - 1 in
  y * 365 + y / 4 - y / 100 + y / 400.

Fixpoint days_before_month_aux (year : Z) (months : nat) : Z :=
  match months with
  | O => 0
  | S k => days_before_month_aux year k + days_in_month year (Z.of_nat (S k))
  end.

(** Days of [year] before the first of [month]. *)
Definition days_before_month (year month : Z) : Z :=
  days_before_month_aux year (Z.to_nat (month - 1)).

Definition ymd2ord (year month day : Z) : Z :=
  days_before_year year + days_before_month year month + day.

(** The constructor [datetime(year, month, day)] at midnight; [None] is
    its [ValueError]. *)
Definition make_date (year month day : Z) : option datetime :=
  if (1 <=? year) && (year <=? 9999) && (1 <=? month) && (month <=? 12)
     && (1 <=? day) && (day <=? days_in_month year month)
  then Some (ymd2ord year month day * day_us)
  else None.

Definition is_digit (c : ascii) : bool :=
  let n := Z.of_nat (nat_of_ascii c) in (48 <=? n) && (n <=? 57).
Definition digit (c : ascii) : Z := Z.of_nat (nat_of_ascii c) - 48.
Definition between (c lo hi : ascii) : bool :=
  let n := nat_of_ascii c in
  (nat_of_ascii lo <=? n)%nat && (n <=? nat_of_ascii hi)%nat.

(** The directive [%Y] is the pattern [\d\d\d\d]. *)
Definition match_Y (s : list ascii) : option (Z * list ascii) :=
  match s with
  | a :: b :: c :: d :: rest =>
      if is_digit a && is_digit b && is_digit c && is_digit d
      then Some (((digit a * 10 + digit b) * 10 + digit c) * 10 + digit d,
                 rest)
      else None
  | _ => None
  end.

(** The directive [%m] is the pattern [1[0-2]|0[1-9]|[1-9]]: the first
    alternative that matches is taken. *)
Definition match_m (s : list ascii) : option (Z * list ascii) :=
  match s with
  | a :: rest =>
      match rest with
      | b :: rest' =>
          if Ascii.eqb a "1"%char && between b "0"%char "2"%char
          then Some (10 + digit b, rest')
          else if Ascii.eqb a "0"%char && between b "1"%char "9"%char
          then Some (digit b, rest')
          else if between a "1"%char "9"%char then Some (digit a, rest) else None
      | [] => if between a "1"%char "9"%char then Some (digit a, rest) else None
      end
  | [] => None
  end.

(** The directive [%d] is the pattern
    [3[0-1]|[1-2]\d|0[1-9]|[1-9]| [1-9]]. *)
Definition match_d (s : list ascii) : option (Z * list ascii) :=
  match s with
  | a :: rest =>
      match rest with
      | b :: rest' =>
          if Ascii.eqb a "3"%char && between b "0"%char "1"%char
          then Some (30 + digit b, rest')
          else if between a "1"%char "2"%char && is_digit b
          then Some (digit a * 10 + digit b, rest')
          else if Ascii.eqb a "0"%char && between b "1"%char "9"%char
          then Some (digit b, rest')
          else if between a "1"%char "9"%char then Some (digit a, rest)
          else if Ascii.eqb a " "%char && between b "1"%char "9"%char
          then Some (digit b, rest')
          else None
      | [] => if between a "1"%char "9"%char then Some (digit a, rest) else None
      end
  | [] => None
  end.

Definition match_dash (s : list ascii) : option (list ascii) :=
  match s with
  | c :: rest => if Ascii.eqb c "-"%char then Some rest else None
  | [] => None
  end.

(** [datetime.strptime(s, "%Y-%m-%d")]; [None] is its [ValueError]: the
    text does not match the format, some of it is left over after the
    match, or the numbers are not a date of the calendar.  The text is
    read byte by byte and a digit is one of the ASCII digits [0] to [9]:
    a text with a character outside ASCII is read as one that does not
    match, also where it writes a number in the decimal digits of
    another script, which the pattern [\d] of the library accepts. *)
Definition strptime (s : string) : option datetime :=
  match match_Y (list_ascii_of_string s) with
  | Some (year, s1) =>
      match match_dash s1 with
      | Some s2 =>
          match match_m s2 with
          | Some (month, s3) =>
              match match_dash s3 with
              | Some s4 =>
                  match match_d s4 with
                  | Some (day, []) => make_date year month day
                  | _ => None
                  end
              | None => None
              end
          | None => None
          end
      | None => None
      end
  | None => None
  end.

End PyDate.

(* ================================================================== *)
(** ** The data model *)

Import PyFloat PyDate.

Local Open Scope string_scope.
Local Open Scope list_scope.
Local Open Scope Z_scope.

(** The dataclass [Task]. *)
Record Task : Type := mkTask {
  name : string;
  urgency : Z;        (* 1-10 scale *)
  importance : Z;     (* 1-10 scale *)
  effort : Z;         (* 1-10 scale (hours estimated) *)
  deadline : string;  (* ISO format: YYYY-MM-DD *)
  status : string;
  priority : string;
  score : float
}.

Definition set_score (t : Task) (s : float) : Task :=
  {| name := name t; urgency := urgency t; importance := importance t;
     effort := effort t; deadline := deadline t; status := status t;
     priority := priority t; score := s |}.

(** What [json.load] returns; the members of an object are those of the
    [dict], in its order, each key once. *)
#[local] Set Warnings "-register-all".
Inductive json : Type :=
| JNull
| JBool (b : bool)
| JInt (n : Z)
| JFloat (x : float)
| JString (s : string)
| JArray (items : list json)
| JObject (members : list (string * json)).

(** What [print] writes: a line of text, or a row of the results table
    before its columns are padded and joined into one line. *)
Inductive line : Type :=
| Text (s : string)
| Row (idx : Z) (score_indicator : string) (task_score : float)
      (task_name : string) (task_urgency task_importance : Z)
      (deadline_display : string).

(** A reference to a [Task] object. *)
Definition ref : Type := nat.

(** The state of the interpreter that the scorer reads and writes.
    - [heap]: the [Task] objects, by reference; two references to one
      object see each other's updates;
    - [next_ref]: the next unused reference;
    - [tasks]: the scorer's [self.tasks], a list of references;
    - [stdout]: the lines printed so far;
    - [clock]: the values the coming calls of [datetime.now()] return;
    - [files]: for each path, what [open] followed by [json.load] gives:
      the parsed document or the exception raised
      ([FileNotFoundError], [JSONDecodeError], [PermissionError], ...). *)
Record world : Type := mkWorld {
  heap : ref -> Task;
  next_ref : ref;
  tasks : list ref;
  stdout : list line;
  clock : nat -> datetime;
  files : string -> result json
}.

(* ================================================================== *)
(** ** Statements: state and exceptions *)

Definition M (A : Type) : Type := world -> result A * world.

Definition ret {A} (a : A) : M A := fun w => (Ok a, w).

Definition bind {A B} (m : M A) (k : A -> M B) : M B :=
  fun w =>
    match m w with
    | (Ok a, w') => k a w'
    | (Raise e, w') => (Raise e, w')
    end.

Definition raise {A} (e : exn) : M A := fun w => (Raise e, w).

(** An expression that may raise, used as a statement. *)
Definition lift {A} (r : result A) : M A := fun w => (r, w).

Declare Scope py_scope.
Delimit Scope py_scope with py.
Notation "x <- m ;; k" := (bind m (fun x => k))
  (at level 61, m at next level, right associativity) : py_scope.
Notation "m ;; k" := (bind m (fun _ => k))
  (at level 61, right associativity) : py_scope.
Local Open Scope py_scope.

(** [try: body  except cls1: h1  except cls2: h2 ...]: the first clause
    whose class the exception is an instance of handles it; with no such
    clause the exception goes on to the caller. *)
Fixpoint handle {A} (e : exn) (clauses : list (exn * M A)) : M A :=
  match clauses with
  | [] => raise e
  | (cls, h) :: rest => if isinstance e cls then h else handle e rest
  end.

Definition try_except {A} (body : M A) (clauses : list (exn * M A)) : M A :=
  fun w =>
    match body w with
    | (Ok a, w') => (Ok a, w')
    | (Raise e, w') => handle e clauses w'
    end.

(** [for x in xs: body]. *)
Fixpoint for_each {X} (xs : list X) (body : X -> M unit) : M unit :=
  match xs with
  | [] => ret tt
  | x :: rest => body x ;; for_each rest body
  end.

(** The list comprehension [[f(x) for x in xs]]. *)
Fixpoint comprehension {X Y} (f : X -> M Y) (xs : list X) : M (list Y) :=
  match xs with
  | [] => ret []
  | x :: rest => y <- f x ;; ys <- comprehension f rest ;; ret (y :: ys)
  end.

(** A statement that the model follows only as far as the values are of
    the types that [Task] annotates: [None] is a run on which some field
    would hold a value of another type, which Python stores as it is and
    which [Task] has no place for. *)
Definition P (A : Type) : Type := world -> option (result A * world).

(** A statement that the model follows on every run. *)
Definition total {A} (m : M A) : P A := fun w => Some (m w).

(** A value that the model has only when it is typed. *)
Definition typed {A} (o : option A) : P A :=
  fun w =>
    match o with
    | Some a => Some (Ok a, w)
    | None => None
    end.

Definition pbind {A B} (m : P A) (k : A -> P B) : P B :=
  fun w =>
    match m w with
    | Some (Ok a, w') => k a w'
    | Some (Raise e, w') => Some (Raise e, w')
    | None => None
    end.

Notation "x <-- m ;; k" := (pbind m (fun x => k))
  (at level 61, m at next level, right associativity) : py_scope.
Notation "m ;;; k" := (pbind m (fun _ => k))
  (at level 61, right associativity) : py_scope.

Definition ptry_except {A} (body : P A) (clauses : list (exn * M A)) : P A :=
  fun w =>
    match body w with
    | Some (Ok a, w') => Some (Ok a, w')
    | Some (Raise e, w') => Some (handle e clauses w')
    | None => None
    end.

Definition print (l : line) : M unit :=
  fun w =>
    (Ok tt,
     {| heap := heap w; next_ref := next_ref w; tasks := tasks w;
        stdout := stdout w ++ [l]; clock := clock w; files := files w |}).

(** [datetime.now()]. *)
Definition now : M datetime :=
  fun w =>
    (Ok (clock w O),
     {| heap := heap w; next_ref := next_ref w; tasks := tasks w;
        stdout := stdout w; clock := (fun k => clock w (S k));
        files := files w |}).

(** Reading an object, and the assignment [task.score = s]. *)
Definition get (r : ref) : M Task := fun w => (Ok (heap w r), w).

Definition assign_score (r : ref) (s : float) : M unit :=
  fun w =>
    (Ok tt,
     {| heap := (fun r' => if Nat.eqb r' r then set_score (heap w r) s
                           else heap w r');
        next_ref := next_ref w; tasks := tasks w; stdout := stdout w;
        clock := clock w; files := files w |}).

(** The constructor call [Task(...)]: a new object. *)
Definition new_task (t : Task) : M ref :=
  fun w =>
    (Ok (next_ref w),
     {| heap := (fun r' => if Nat.eqb r' (next_ref w) then t else heap w r');
        next_ref := S (next_ref w); tasks := tasks w; stdout := stdout w;
        clock := clock w; files := files w |}).

(** Reading and assigning [self.tasks]. *)
Definition self_tasks : M (list ref) := fun w => (Ok (tasks w), w).

Definition assign_tasks (l : list ref) : M unit :=
  fun w =>
    (Ok tt,
     {| heap := heap w; next_ref := next_ref w; tasks := l;
        stdout := stdout w; clock := clock w; files := files w |}).

(** [open(filepath)] followed by [json.load(f)]. *)
Definition open_and_load (filepath : string) : M json :=
  fun w => (files w filepath, w).

(** [str(n)] for an [int]. *)
Definition str_of_int (n : Z) : string :=
  NilZero.string_of_int (Z.to_int n).

(** [len(xs)]. *)
Definition len {X} (xs : list X) : Z := Z.of_nat (List.length xs).

(** The slice [xs[:n]]: a negative [n] counts from the end. *)
Definition slice_to {X} (xs : list X) (n : Z) : list X :=
  if 0 <=? n then firstn (Z.to_nat n) xs
  else firstn (Z.to_nat (len xs + n)) xs.

(** A Python [str] is given here by its UTF-8 encoding: a character is
    a byte that is no continuation byte (one of the form 10xxxxxx),
    followed by its continuation bytes.  [str_len] is [len(s)], the
    number of characters, and [str_take n s] is the slice [s[:n]], the
    first [n] characters. *)
Definition is_continuation (c : ascii) : bool :=
  let n := nat_of_ascii c in ((128 <=? n) && (n <? 192))%nat.

Fixpoint str_len (s : string) : nat :=
  match s with
  | EmptyString => O
  | String c rest =>
      if is_continuation c then str_len rest else S (str_len rest)
  end.

Fixpoint str_take (n : nat) (s : string) : string :=
  match s with
  | EmptyString => EmptyString
  | String c rest =>
      if is_continuation c then String c (str_take n rest)
      else match n with
           | O => EmptyString
           | S k => String c (str_take k rest)
           end
  end.

(** The characters of a string, each as a string of its own. *)
Fixpoint str_chars (s : string) : list string :=
  match s with
  | EmptyString => []
  | String c rest =>
      match rest with
      | String c' _ =>
          if is_continuation c'
          then match str_chars rest with
               | first :: others => String c first :: others
               | [] => [String c EmptyString]
               end
          else String c EmptyString :: str_chars rest
      | EmptyString => [String c EmptyString]
      end
  end.

(** [s * n]: [n] copies of the string [s]. *)
Fixpoint repeat_string (s : string) (n : nat) : string :=
  match n with
  | O => ""
  | S k => (s ++ repeat_string s k)%string
  end.

(** ** [sorted]

    [sorted(xs, key=..., reverse=...)] compares keys with [<] only and is
    stable.  With [reverse=True] CPython reverses the list, sorts it in
    increasing order and reverses the result, which keeps equal keys in
    their original order.  The increasing sort is written here as an
    insertion sort; on keys that [<] orders (floats other than NaN) every
    stable sort returns the same list. *)
Section Sorted.
Context {X : Type} (key : X -> float).

Fixpoint insert (x : X) (l : list X) : list X :=
  match l with
  | [] => [x]
  | y :: l' =>
      if flt (key y) (key x) then y :: insert x l' else x :: y :: l'
  end.

Definition stable_sort (l : list X) : list X := fold_right insert [] l.

Definition sorted (l : list X) (reverse : bool) : list X :=
  if reverse then rev (stable_sort (rev l)) else stable_sort l.
End Sorted.

(* ================================================================== *)
(** ** [class TaskPriorityScorer] *)

(** Scoring weights *)
Definition URGENCY_WEIGHT : float := literal 4 10.     (* 0.4 *)
Definition IMPORTANCE_WEIGHT : float := literal 3 10.  (* 0.3 *)
Definition DEADLINE_WEIGHT : float := literal 2 10.    (* 0.2 *)
Definition EFFORT_WEIGHT : float := literal 1 10.      (* 0.1 *)

(** Display settings *)
Definition TABLE_WIDTH : nat := 100.
Definition NAME_WIDTH : nat := 32.

(** *** Loading *)

Fixpoint lookup (k : string) (members : list (string * json)) : option json :=
  match members with
  | [] => None
  | (k', v) :: rest => if String.eqb k' k then Some v else lookup k rest
  end.

(** [data.get('tasks', [])]: only a JSON object has a [get]. *)
Definition get_tasks (data : json) : result json :=
  match data with
  | JObject members =>
      match lookup "tasks" members with
      | Some v => Ok v
      | None => Ok (JArray [])
      end
  | _ => Raise AttributeError
  end.

Definition chars (s : string) : list json := map JString (str_chars s).

(** The items a [for] loop takes from a value: the elements of a list,
    the keys of a dict, the characters of a string; other JSON values are
    not iterable. *)
Definition iterate (v : json) : result (list json) :=
  match v with
  | JArray items => Ok items
  | JObject members => Ok (map (fun kv => JString (fst kv)) members)
  | JString s => Ok (chars s)
  | _ => Raise TypeError
  end.

Definition field_names : list string :=
  ["name"; "urgency"; "importance"; "effort"; "deadline"; "status";
   "priority"; "score"].

(** A value of the annotated type; [None] is a value of another type. *)
Definition as_str (v : json) : option string :=
  match v with JString s => Some s | _ => None end.
Definition as_int (v : json) : option Z :=
  match v with JInt n => Some n | _ => None end.
Definition as_float (v : json) : option float :=
  match v with JFloat x => Some x | _ => None end.

(** The value of the keyword [k] if it is given, or the default of the
    field. *)
Definition keyword {A} (k : string) (conv : json -> option A) (default : A)
    (members : list (string * json)) : option A :=
  match lookup k members with
  | Some v => conv v
  | None => Some default
  end.

Definition obind {A B} (o : option A) (k : A -> option B) : option B :=
  match o with
  | Some a => k a
  | None => None
  end.

Definition rbind {A B} (r : result A) (k : A -> result B) : result B :=
  match r with
  | Ok a => k a
  | Raise e => Raise e
  end.

(** The keywords of the call [Task( ** task)]: [task] must be a mapping
    (a JSON object), name no keyword that is not a field, and give the
    five fields that have no default; each of these is a [TypeError]
    otherwise.  The dataclass does not check the values: the object is
    built whatever they are.  [Ok (Some t)] is that object when every
    value is of the annotated type, [Ok None] stands for the object built
    from a value that is not. *)
Definition task_kwargs (task : json) : result (option Task) :=
  match task with
  | JObject members =>
      if forallb (fun kv => existsb (String.eqb (fst kv)) field_names)
                 members
      then
        match lookup "name" members, lookup "urgency" members,
              lookup "importance" members, lookup "effort" members,
              lookup "deadline" members with
        | Some name, Some urgency, Some importance, Some effort,
          Some deadline =>
            Ok (obind (as_str name) (fun name =>
                obind (as_int urgency) (fun urgency =>
                obind (as_int importance) (fun importance =>
                obind (as_int effort) (fun effort =>
                obind (as_str deadline) (fun deadline =>
                obind (keyword "status" as_str "todo" members) (fun status =>
                obind (keyword "priority" as_str "medium" members)
                      (fun priority =>
                obind (keyword "score" as_float (Fin 0) members) (fun score =>
                Some (mkTask name urgency importance effort deadline status
                             priority score))))))))))
        | _, _, _, _, _ => Raise TypeError
        end
      else Raise TypeError
  | _ => Raise TypeError
  end.

(** [Task( ** task)]: the reference of the new object, or [None] for an
    object that [Task] has no place for. *)
Definition construct (task : json) : M (option ref) :=
  o <- lift (task_kwargs task) ;;
  match o with
  | Some t => r <- new_task t ;; ret (Some r)
  | None => ret None
  end.

(** The objects of a list, when all of them are typed. *)
Fixpoint all_typed {X} (objects : list (option X)) : option (list X) :=
  match objects with
  | [] => Some []
  | Some x :: rest => option_map (cons x) (all_typed rest)
  | None :: _ => None
  end.

(** Load tasks from a JSON file.  The comprehension runs to its end or
    to its first exception on every document; the model follows the
    assignment of [self.tasks] when every object built is typed. *)
Definition load_tasks_from_json (filepath : string) : P unit :=
  ptry_except
    (data <-- total (open_and_load filepath) ;;
     v <-- total (lift (get_tasks data)) ;;
     items <-- total (lift (iterate v)) ;;
     objects <-- total (comprehension construct items) ;;
     new_tasks <-- typed (all_typed objects) ;;
     total (assign_tasks new_tasks) ;;;
     loaded <-- total self_tasks ;;
     total (print (Text ("  ✅ Loaded " ++ str_of_int (len loaded)
                         ++ " tasks from " ++ filepath)%string)))
    [ (FileNotFoundError,
       print (Text ("  ❌ Error: File '" ++ filepath ++ "' not found")%string));
      (JSONDecodeError,
       print (Text ("  ❌ Error: Invalid JSON in '" ++ filepath ++ "'")%string)) ].

(** Add a single task to the scorer *)
Definition add_task (task : ref) : M unit :=
  l <- self_tasks ;; assign_tasks (l ++ [task]).

(** *** Scoring *)

(** Calculate urgency factor based on deadline proximity. *)
Definition calculate_deadline_factor (deadline_str : string) : M float :=
  try_except
    (deadline <- match strptime deadline_str with
                 | Some d => ret d
                 | None => raise ValueError
                 end ;;
     today <- now ;;
     let days_until := timedelta_days (deadline - today) in
     (* Scoring logic *)
     if days_until <? 0 then ret (literal 10 1)       (* Overdue *)
     else if days_until =? 0 then ret (literal 10 1)  (* Due today *)
     else if days_until =? 1 then ret (literal 9 1)   (* Due tomorrow *)
     else if days_until <=? 3 then ret (literal 8 1)  (* within 3 days *)
     else if days_until <=? 7 then ret (literal 6 1)  (* within a week *)
     else if days_until <=? 14 then ret (literal 4 1) (* within 2 weeks *)
     else if days_until <=? 30 then ret (literal 2 1) (* within a month *)
     else ret (literal 1 1))                          (* later *)
    [ (ValueError,
       print (Text ("  ⚠️  Warning: Invalid deadline format '"
                    ++ deadline_str ++ "', using default factor")%string) ;;
       ret (literal 5 1)) ].                          (* Default middle value *)

(** Calculate efficiency score based on effort required: the result is
    the [int] [10 - effort]. *)
Definition calculate_effort_efficiency (effort : Z) : Z :=
  10 - effort.

(** Calculate overall priority score for a task. *)
Definition calculate_task_score (task : Task) : M float :=
  deadline_factor <- calculate_deadline_factor (deadline task) ;;
  let effort_efficiency := calculate_effort_efficiency (effort task) in
  a <- lift (int_mul (urgency task) URGENCY_WEIGHT) ;;
  b <- lift (int_mul (importance task) IMPORTANCE_WEIGHT) ;;
  let c := fmul deadline_factor DEADLINE_WEIGHT in
  d <- lift (int_mul effort_efficiency EFFORT_WEIGHT) ;;
  let score := fadd (fadd (fadd a b) c) d in
  lift (round score 2).

(** Calculate scores for all tasks *)
Definition score_all_tasks : M unit :=
  l <- self_tasks ;;
  for_each l (fun task =>
    t <- get task ;;
    s <- calculate_task_score t ;;
    assign_score task s) ;;
  l' <- self_tasks ;;
  print (Text ("  ✅ Scored " ++ str_of_int (len l') ++ " tasks")%string).

(** Get tasks sorted by score; [reverse]: highest scores first. *)
Definition get_sorted_tasks (reverse : bool) : M (list ref) :=
  fun w => (Ok (sorted (fun t => score (heap w t)) (tasks w) reverse), w).

(** *** Display *)

(** Truncate task name to fit display width *)
Definition _truncate_name (name : string) : string :=
  if (NAME_WIDTH <? str_len name)%nat
  then (str_take (NAME_WIDTH - 3) name ++ "...")%string
  else name.

(** Get formatted deadline display string *)
Definition _get_deadline_display (deadline_str : string) : M string :=
  try_except
    (deadline_obj <- match strptime deadline_str with
                     | Some d => ret d
                     | None => raise ValueError
                     end ;;
     today <- now ;;
     let days_until := timedelta_days (deadline_obj - today) in
     if days_until <? 0 then ret "⚠️  OVERDUE"
     else if days_until =? 0 then ret "🔴 TODAY"
     else if days_until =? 1 then ret "🟠 Tomorrow"
     else if days_until <=? 3
          then ret ("🟡 " ++ str_of_int days_until ++ " days")%string
     else if days_until <=? 7
          then ret ("🟢 " ++ str_of_int days_until ++ " days")%string
     else ret ("   " ++ str_of_int days_until ++ " days")%string)
    [ (ValueError, ret "   Unknown") ].

(** Get visual indicator based on score *)
Definition _get_score_indicator (score : float) : string :=
  if fge score (literal 8 1) then "🔴"
  else if fge score (literal 6 1) then "🟠"
  else if fge score (literal 4 1) then "🟡"
  else "🟢".

(** [s] padded with spaces on the right to [width] characters, as the
    format [{s:<width}] does. *)
Definition ljust (s : string) (width : nat) : string :=
  (s ++ repeat_string " " (width - str_len s))%string.

(** [enumerate(xs, start)]. *)
Fixpoint enumerate {X} (xs : list X) (start : Z) : list (Z * X) :=
  match xs with
  | [] => []
  | x :: rest => (start, x) :: enumerate rest (start + 1)
  end.

(** The truth value of an [Optional[int]] in [if top_n:]. *)
Definition truthy (top_n : option Z) : bool :=
  match top_n with
  | Some n => negb (n =? 0)
  | None => false
  end.

(** The first statements of [display_results]: the tasks that the table
    will show, in the order of its rows. *)
Definition select_tasks (top_n : option Z) : M (list ref) :=
  sorted_tasks <- get_sorted_tasks true ;;
  match top_n with
  | Some n => if truthy top_n then ret (slice_to sorted_tasks n)
              else ret sorted_tasks
  | None => ret sorted_tasks
  end.

(** Display scored and sorted tasks in a formatted table; [top_n]: if
    provided, only show top N tasks. *)
Definition display_results (top_n : option Z) : M unit :=
  sorted_tasks <- select_tasks top_n ;;
  (* Section header *)
  print (Text "") ;;
  print (Text (repeat_string "─" TABLE_WIDTH)) ;;
  match top_n with
  | Some n =>
      if truthy top_n
      then print (Text ("  🎯 TOP " ++ str_of_int n ++ " PRIORITY TASKS")%string)
      else print (Text "  📊 ALL TASKS (SORTED BY PRIORITY)")
  | None => print (Text "  📊 ALL TASKS (SORTED BY PRIORITY)")
  end ;;
  print (Text (repeat_string "─" TABLE_WIDTH)) ;;
  print (Text "") ;;
  (* Table header *)
  print (Text ("  " ++ ljust "Rank" 6 ++ ljust "Score" 10
               ++ ljust "Task Name" 35 ++ ljust "Urgency" 10
               ++ ljust "Importance" 12 ++ ljust "Deadline" 15)%string) ;;
  print (Text ("  " ++ repeat_string "─" 6 ++ repeat_string "─" 10
               ++ repeat_string "─" 35 ++ repeat_string "─" 10
               ++ repeat_string "─" 12 ++ repeat_string "─" 15)%string) ;;
  (* Task rows *)
  for_each (enumerate sorted_tasks 1) (fun '(idx, task) =>
    t <- get task ;;
    let task_name := _truncate_name (name t) in
    deadline_display <- _get_deadline_display (deadline t) ;;
    let score_indicator := _get_score_indicator (score t) in
    print (Row idx score_indicator (score t) task_name (urgency t)
               (importance t) deadline_display)) ;;
  print (Text "").

(** *** Statistics *)

(** The dict that [get_statistics] returns: the one with the key
    ["error"], or the one with the eight figures. *)
Record summary : Type := mkSummary {
  total_tasks : Z;
  average_score : float;
  highest_score : float;
  lowest_score : float;
  average_urgency : float;
  high_priority_tasks : Z;
  medium_priority_tasks : Z;
  low_priority_tasks : Z
}.

Inductive statistics : Type :=
| NoData (error : string)
| Summary (s : summary).

(** [sum] of a list of [int]s. *)
Definition sum_int (xs : list Z) : Z := fold_left Z.add xs 0.

(** [max(xs)] and [min(xs)] on floats; an empty list is a [ValueError]. *)
Definition max_float (xs : list float) : result float :=
  match xs with
  | [] => Raise ValueError
  | x :: rest => Ok (max_from x rest)
  end.
Definition min_float (xs : list float) : result float :=
  match xs with
  | [] => Raise ValueError
  | x :: rest => Ok (min_from x rest)
  end.

(** The three filters of the bucket counts, on a task's score. *)
Definition is_high (s : float) : bool := fge s (literal 7 1).
Definition is_medium (s : float) : bool :=
  fle (literal 4 1) s && flt s (literal 7 1).
Definition is_low (s : float) : bool := flt s (literal 4 1).

(** [len([t for t in ts if p(t.score)])]. *)
Definition count_if (p : float -> bool) (ts : list Task) : Z :=
  len (filter (fun t => p (score t)) ts).

(** Get summary statistics about the task list *)
Definition get_statistics : M statistics :=
  l <- self_tasks ;;
  match l with
  | [] => ret (NoData "No tasks to analyze")
  | _ :: _ =>
      ts <- comprehension get l ;;
      let scores := map score ts in
      let urgencies := map urgency ts in
      mean <- lift (div_int (PyFloat.sum scores) (len scores)) ;;
      average_score <- lift (round mean 2) ;;
      highest_score <- lift (max_float scores) ;;
      lowest_score <- lift (min_float scores) ;;
      mean_urgency <- lift (int_true_div (sum_int urgencies)
                                         (len urgencies)) ;;
      average_urgency <- lift (round mean_urgency 2) ;;
      ret (Summary
             {| total_tasks := len l;
                average_score := average_score;
                highest_score := highest_score;
                lowest_score := lowest_score;
                average_urgency := average_urgency;
                high_priority_tasks := count_if is_high ts;
                medium_priority_tasks := count_if is_medium ts;
                low_priority_tasks := count_if is_low ts |})
  end.

(* ================================================================== *)
(** * Auxiliary definitions for the properties *)

(** ** The statements of the specification, in its own words *)

(** The score formula of the specification:
    [urgency*0.4 + importance*0.3 + deadline_factor*0.2 +
     effort_efficiency*0.1], rounded to 2 decimal places. *)
Definition spec_score (urgency importance : Z) (deadline_factor : float)
    (effort_efficiency : Z) : result float :=
  rbind (int_mul urgency (literal 4 10)) (fun a =>
  rbind (int_mul importance (literal 3 10)) (fun b =>
  rbind (int_mul effort_efficiency (literal 1 10)) (fun d =>
  round (fadd (fadd (fadd a b) (fmul deadline_factor (literal 2 10))) d)
        2))).

(** The lookup table of the specification, on a number of days. *)
Definition spec_deadline_table (days_until : Z) : float :=
  if days_until <=? 0 then literal 10 1
  else if days_until =? 1 then literal 9 1
  else if days_until <=? 3 then literal 8 1
  else if days_until <=? 7 then literal 6 1
  else if days_until <=? 14 then literal 4 1
  else if days_until <=? 30 then literal 2 1
  else literal 1 1.

(** The day difference of the specification: the deadline's date minus
    the date of [now], the time of day of [now] ignored. *)
Definition spec_days_until (deadline now : datetime) : Z :=
  ordinal_of deadline - ordinal_of now.

(** ** Worlds after an effect *)

Definition printed (l : line) (w : world) : world := snd (print l w).
Definition ticked (w : world) : world := snd (now w).

(** The lines that the handlers print. *)
Definition warning (deadline_str : string) : line :=
  Text ("  ⚠️  Warning: Invalid deadline format '"
        ++ deadline_str ++ "', using default factor")%string.

(** What [calculate_deadline_factor] computes from a deadline that
    parses: its chain of tests, on the day count. *)
Definition deadline_table (days_until : Z) : float :=
  if days_until <? 0 then literal 10 1
  else if days_until =? 0 then literal 10 1
  else if days_until =? 1 then literal 9 1
  else if days_until <=? 3 then literal 8 1
  else if days_until <=? 7 then literal 6 1
  else if days_until <=? 14 then literal 4 1
  else if days_until <=? 30 then literal 2 1
  else literal 1 1.

(** ** The range of the doubles *)

(** Rounding overflows from [2^1024 - 2^970] on, the midpoint between
    the largest double and [2^1024]. *)
Definition overflow_threshold : Z := 2 ^ 1024 - 2 ^ 970.
Definition max_double : Z := 2 ^ 1024 - 2 ^ 971.

(** [q] is within the range of the finite doubles. *)
Definition in_range (q : Q) : Prop :=
  Z.abs (Qnum q) <= max_double * QDen q.

(** A float that is not NaN and whose value, if finite, is within the
    range of the doubles. *)
Definition wf (x : float) : Prop :=
  match x with
  | Fin q => in_range q
  | Inf _ => True
  | NaN => False
  end.

Definition finite (x : float) : Prop :=
  match x with
  | Fin q => in_range q
  | _ => False
  end.

(** A float whose value, if finite, is within the range of the
    doubles. *)
Definition representable (x : float) : Prop :=
  match x with
  | Fin q => in_range q
  | _ => True
  end.

(** The longest list that Python can hold. *)
Definition sys_maxsize : Z := 2 ^ 63 - 1.

(** A float of magnitude at most one half, as the four weights are. *)
Definition small (x : float) : Prop :=
  match x with
  | Fin b => 2 * Z.abs (Qnum b) <= QDen b
  | _ => False
  end.

(** Two tasks that differ in their score at most. *)
Definition same_but_score (t t' : Task) : Prop :=
  name t = name t' /\ urgency t = urgency t'
  /\ importance t = importance t' /\ effort t = effort t'
  /\ deadline t = deadline t' /\ status t = status t'
  /\ priority t = priority t'.

(** A scored collection: every stored task has a score that is a
    number. *)
Definition scored (w : world) : Prop :=
  Forall (fun x => is_nan (score (heap w x)) = false) (tasks w).

(** Increasing and decreasing keys. *)
Definition key_le {X} (key : X -> float) (a b : X) : Prop :=
  fle (key a) (key b) = true.
Definition key_ge {X} (key : X -> float) (a b : X) : Prop :=
  fge (key a) (key b) = true.

(** The order of the ranking: decreasing scores when [reverse] is set,
    increasing scores otherwise. *)
Definition ranked (w : world) (reverse : bool) (a b : ref) : Prop :=
  if reverse then fge (score (heap w a)) (score (heap w b)) = true
  else fle (score (heap w a)) (score (heap w b)) = true.

(** The tasks of a list whose score equals [s]. *)
Definition with_score (w : world) (s : float) (l : list ref) : list ref :=
  filter (fun x => feq (score (heap w x)) s) l.

(** The row that the table shows for a task. *)
Definition row_of (idx : Z) (t : Task) (deadline_display : string) : line :=
  Row idx (_get_score_indicator (score t)) (score t)
      (_truncate_name (name t)) (urgency t) (importance t) deadline_display.

(** A line that is no row of the table. *)
Definition is_text (l : line) : Prop :=
  match l with Text _ => True | Row _ _ _ _ _ _ _ => False end.

(** ** The 1-10 scale

    Equality of floats as terms. *)
Definition float_eqb (x y : float) : bool :=
  match x, y with
  | Fin a, Fin b => (Qnum a =? Qnum b) && (Qden a =? Qden b)%positive
  | Inf s, Inf s' => Bool.eqb s s'
  | NaN, NaN => true
  | _, _ => false
  end.

(** The 1-10 scale, and the values of the deadline factor. *)
Definition scale_1_10 : list Z := [1; 2; 3; 4; 5; 6; 7; 8; 9; 10].
Definition factor_values : list Z := [1; 2; 4; 5; 6; 8; 9; 10].

(** The score of the specification in exact arithmetic, in tenths. *)
Definition exact_tenths (urgency importance factor effort : Z) : Z :=
  4 * urgency + 3 * importance + 2 * factor + (10 - effort).

(** The exhaustive check of the formula over lists of urgencies,
    importances, efforts and deadline factors: whether it gives the
    double nearest to the exact value; the products and the partial sums
    are computed once. *)
Definition staged_check (us is_ es fs : list Z) : bool :=
  let ds := map (fun e => (e, int_mul (calculate_effort_efficiency e)
                                      (literal 1 10))) es in
  let cs := map (fun f => (f, fmul (literal f 1) (literal 2 10))) fs in
  let w4 := literal 4 10 in
  let w3 := literal 3 10 in
  forallb (fun u =>
    match int_mul u w4 with
    | Ok a =>
        forallb (fun i =>
          match int_mul i w3 with
          | Ok b =>
              let ab := fadd a b in
              forallb (fun fc =>
                let abc := fadd ab (snd fc) in
                forallb (fun ed =>
                  match snd ed with
                  | Ok d =>
                      match round (fadd abc d) 2 with
                      | Ok v =>
                          float_eqb v
                            (literal (exact_tenths u i (fst fc) (fst ed)) 10)
                      | Raise _ => false
                      end
                  | Raise _ => false
                  end) ds) cs
          | Raise _ => false
          end) is_
    | Raise _ => false
    end) us.

(** ** Worlds for the examples *)

(** No task, nothing printed, no file, and a clock that reads [t] at
    every call. *)
Definition idle_world (t : datetime) : world :=
  {| heap := fun _ => mkTask "" 0 0 0 "" "todo" "medium" (Fin 0);
     next_ref := O; tasks := []; stdout := [];
     clock := fun _ => t; files := fun _ => Raise FileNotFoundError |}.

(** 2026-11-03 at 12:00:00. *)
Definition noon_2026_11_03 : datetime :=
  ymd2ord 2026 11 3 * day_us + 12 * 3600 * 1000000.

(** Three scored tasks: two with the score 5.0 around one with 9.9. *)
Definition three_task_world : world :=
  {| heap := fun r =>
       match r with
       | 0%nat =>
           mkTask "file expenses" 5 5 5 "someday" "todo" "medium"
                  (literal 5 1)
       | 1%nat =>
           mkTask "ship release" 10 10 1 "2026-11-03" "in_progress" "high"
                  (literal 99 10)
       | _ =>
           mkTask "book flights" 5 5 5 "whenever" "todo" "medium"
                  (literal 5 1)
       end;
     next_ref := 3%nat; tasks := [0; 1; 2]%nat; stdout := [];
     clock := fun _ => noon_2026_11_03;
     files := fun _ => Raise FileNotFoundError |}.

(** The world [w] with the document or the exception [content] behind
    every path. *)
Definition with_file (w : world) (content : result json) : world :=
  {| heap := heap w; next_ref := next_ref w; tasks := tasks w;
     stdout := stdout w; clock := clock w; files := fun _ => content |}.

(** Two scored tasks, the lower score first. *)
Definition two_task_world : world :=
  {| heap := fun r =>
       match r with
       | 0%nat =>
           mkTask "water plants" 1 1 10 "2027-01-02" "todo" "low"
                  (literal 9 10)
       | _ =>
           mkTask "ship release" 10 10 1 "2026-11-03" "in_progress" "high"
                  (literal 99 10)
       end;
     next_ref := 2%nat; tasks := [0; 1]%nat; stdout := [];
     clock := fun _ => noon_2026_11_03;
     files := fun _ => Raise FileNotFoundError |}.

(* ================================================================== *)
(** * Facts about floats *)

Lemma pow2_pos (k : Z) : 0 <= k -> 0 < 2 ^ k.
Proof. intros. apply Z.pow_pos_nonneg; lia. Qed.

Lemma pow2_double_le (e k : Z) : 0 <= e < k -> 2 ^ e * 2 <= 2 ^ k.
Proof.
  intros H. replace (2 ^ e * 2) with (2 ^ (e + 1)).
  - apply Z.pow_le_mono_r; lia.
  - rewrite Z.pow_add_r by lia. reflexivity.
Qed.

Lemma ilog2_ratio_spec (a d : Z) :
  0 < a -> 0 < d ->
  let l := ilog2_ratio a d in
  (0 <= l -> d * 2 ^ l <= a < d * 2 ^ (l + 1))
  /\ (l < 0 -> d <= a * 2 ^ (- l) /\ a * 2 ^ (- l - 1) < d).
Proof.
  intros Ha Hd. unfold ilog2_ratio.
  destruct (Z.log2_spec a Ha) as [La Ua].
  destruct (Z.log2_spec d Hd) as [Ld Ud].
  pose proof (Z.log2_nonneg a) as Na. pose proof (Z.log2_nonneg d) as Nd.
  set (la := Z.log2 a) in *. set (ld := Z.log2 d) in *.
  rewrite Z.pow_succ_r in Ua, Ud by assumption.
  destruct (Z.leb_spec 0 (la - ld)) as [H0|H0].
  - assert (E : 2 ^ la = 2 ^ ld * 2 ^ (la - ld))
      by (rewrite <- Z.pow_add_r by lia; f_equal; lia).
    pose proof (pow2_pos ld Nd) as Pd. pose proof (pow2_pos (la - ld) H0) as Pl.
    destruct (Z.leb_spec (d * 2 ^ (la - ld)) a) as [T|T]; cbv zeta.
    + split; [intros _|lia].
      rewrite Z.pow_add_r by lia. change (2 ^ 1) with 2. nia.
    + destruct (Z.eq_dec (la - ld) 0) as [Z0|Z0].
      * rewrite Z0 in *. change (0 - 1) with (-1). split; [lia|intros _].
        change (- -1) with 1. change (1 - 1) with 0.
        change (2 ^ 1) with 2. change (2 ^ 0) with 1 in *. nia.
      * split; [intros _|lia].
        replace (la - ld - 1 + 1) with (la - ld) by lia.
        split; [|lia].
        assert (E2 : 2 ^ (la - ld) = 2 * 2 ^ (la - ld - 1))
          by (rewrite <- Z.pow_succ_r by lia; f_equal; lia).
        pose proof (pow2_pos (la - ld - 1) ltac:(lia)). nia.
  - set (k := - (la - ld)). assert (Hk : 0 < k) by (subst k; lia).
    assert (E : 2 ^ ld = 2 ^ la * 2 ^ k)
      by (rewrite <- Z.pow_add_r by lia; f_equal; lia).
    pose proof (pow2_pos la Na) as Pa. pose proof (pow2_pos k ltac:(lia)) as Pk.
    assert (E2 : 2 ^ k = 2 * 2 ^ (k - 1))
      by (rewrite <- Z.pow_succ_r by lia; f_equal; lia).
    pose proof (pow2_pos (k - 1) ltac:(lia)) as Pk1.
    destruct (Z.leb_spec d (a * 2 ^ k)) as [T|T]; cbv zeta.
    + split; [lia|intros _]. fold k.
      split; [exact T|]. nia.
    + split; [lia|intros _].
      replace (- (la - ld - 1)) with (k + 1) by lia.
      replace (k + 1 - 1) with k by lia.
      rewrite Z.pow_add_r by lia. change (2 ^ 1) with 2. nia.
Qed.

Lemma div_half_even_upper (n d k : Z) :
  0 < d -> n <= d * k -> div_half_even n d <= k.
Proof.
  intros Hd H. unfold div_half_even.
  pose proof (Z.div_mod n d ltac:(lia)) as E.
  pose proof (Z.mod_pos_bound n d Hd) as B.
  assert (Hq : n / d <= k) by nia.
  destruct (Z.eq_dec (n / d) k) as [Q|Q].
  - assert (R : n mod d = 0) by nia. rewrite R.
    change (2 * 0) with 0. destruct (Z.compare_spec 0 d); lia.
  - destruct (2 * (n mod d) ?= d); [destruct (Z.even _)| |]; lia.
Qed.

Lemma div_half_even_lower (n d k : Z) :
  0 < d -> d * k <= n -> k <= div_half_even n d.
Proof.
  intros Hd H. unfold div_half_even.
  pose proof (Z.div_mod n d ltac:(lia)) as E.
  pose proof (Z.mod_pos_bound n d Hd) as B.
  assert (Hq : k <= n / d) by nia.
  destruct (2 * (n mod d) ?= d); [destruct (Z.even _)| |]; lia.
Qed.

(** With an even [k], [n / d] rounds to [k] or more exactly from the
    midpoint [k - 1/2] on. *)
Lemma div_half_even_ge_even (n d k : Z) :
  0 < d -> Z.even k = true ->
  (k <= div_half_even n d <-> d * (2 * k - 1) <= 2 * n).
Proof.
  intros Hd Hk. unfold div_half_even.
  pose proof (Z.div_mod n d ltac:(lia)) as E.
  pose proof (Z.mod_pos_bound n d Hd) as B.
  set (q := n / d) in *. set (r := n mod d) in *.
  destruct (Z.compare_spec (2 * r) d) as [C|C|C].
  - destruct (Z.even q) eqn:Q.
    + split; intros H; [nia|].
      destruct (Z.le_gt_cases k q) as [|G]; [assumption|].
      assert (Eq : q = k - 1) by nia.
      rewrite Eq, Z.even_sub, Hk in Q. discriminate.
    + split; intros H; [|nia].
      destruct (Z.eq_dec (q + 1) k) as [|N]; [nia|].
      assert (k <= q) by lia. nia.
  - split; intros H; nia.
  - split; intros H; nia.
Qed.


(** A positive rational overflows exactly from [2^1024 - 2^970] on, the
    midpoint between the largest double and [2^1024]. *)
Lemma round_pos_overflow (a d : Z) :
  0 < a -> 0 < d ->
  (round_pos a d = None <-> d * overflow_threshold <= a).
Proof.
  intros Ha Hd. unfold round_pos, overflow_threshold.
  pose proof (ilog2_ratio_spec a d Ha Hd) as S. cbv zeta in S.
  set (l := ilog2_ratio a d) in *.
  set (e := Z.max (l - 52) (-1074)).
  assert (P970 : 0 < 2 ^ 970) by (apply pow2_pos; lia).
  assert (E1024 : 2 ^ 1024 = 2 ^ 970 * 2 ^ 54) by reflexivity.
  assert (E1023 : 2 ^ 1023 = 2 ^ 970 * 2 ^ 53) by reflexivity.
  assert (E971 : 2 ^ 971 = 2 ^ 970 * 2) by reflexivity.
  assert (E54 : 2 ^ 54 = 2 * 2 ^ 53) by reflexivity.
  assert (P53 : 0 < 2 ^ 53) by reflexivity.
  destruct (Z.leb_spec 0 e) as [He|He].
  - assert (El : e = l - 52) by lia.
    assert (Hl : 0 <= l) by lia.
    destruct S as [[S1 S2] _]; [lia|].
    pose proof (pow2_pos e He) as Pe.
    assert (E2 : 2 ^ (l + 1) = 2 ^ e * 2 ^ 53)
      by (rewrite <- Z.pow_add_r by lia; f_equal; lia).
    assert (E3 : 2 ^ l = 2 ^ e * 2 ^ 52)
      by (rewrite <- Z.pow_add_r by lia; f_equal; lia).
    set (m := div_half_even a (d * 2 ^ e)).
    assert (U : m <= 2 ^ 53) by (apply div_half_even_upper; nia).
    assert (L : 2 ^ 52 <= m) by (apply div_half_even_lower; nia).
    destruct (Z.leb_spec (2 ^ 1024) (m * 2 ^ e)) as [O|O].
    + split; [intros _|reflexivity].
      destruct (Z.lt_trichotomy e 971) as [C|[C|C]].
      * exfalso.
        assert (2 ^ e * 2 <= 2 ^ 971) by (apply pow2_double_le; lia).
        nia.
      * assert (M : 2 ^ 53 <= m) by (rewrite C in O; nia).
        apply (div_half_even_ge_even a (d * 2 ^ e) (2 ^ 53)) in M;
          [|nia|reflexivity].
        rewrite C in M. nia.
      * assert (2 ^ 972 <= 2 ^ e) by (apply Z.pow_le_mono_r; lia).
        assert (2 ^ 972 = 2 ^ 970 * 4) by reflexivity.
        assert (2 ^ 52 * 4 = 2 ^ 54) by reflexivity.
        nia.
    + split; [discriminate|intros H; exfalso].
      destruct (Z.lt_trichotomy e 971) as [C|[C|C]].
      * assert (2 ^ e * 2 <= 2 ^ 971) by (apply pow2_double_le; lia).
        nia.
      * assert (M : 2 ^ 53 <= m).
        { apply div_half_even_ge_even; [nia|reflexivity|].
          rewrite C. nia. }
        rewrite C in O. nia.
      * assert (2 ^ 972 <= 2 ^ e) by (apply Z.pow_le_mono_r; lia).
        assert (2 ^ 972 = 2 ^ 970 * 4) by reflexivity.
        assert (2 ^ 52 * 4 = 2 ^ 54) by reflexivity.
        nia.
  - split; [discriminate|intros H; exfalso].
    assert (Hl : l < 52) by lia.
    destruct (Z.le_gt_cases 0 l) as [Hl0|Hl0].
    + destruct S as [[S1 S2] _]; [lia|].
      assert (2 ^ (l + 1) <= 2 ^ 52) by (apply Z.pow_le_mono_r; lia).
      assert (2 ^ 52 < 2 ^ 53) by reflexivity. nia.
    + destruct S as [_ [S1 S2]]; [lia|].
      pose proof (pow2_pos (- l - 1) ltac:(lia)). nia.
Qed.

(** The value of a successful rounding is at most the largest double. *)
Lemma round_pos_bound (a d : Z) (v : Q) :
  0 < a -> 0 < d -> round_pos a d = Some v ->
  0 <= Qnum v /\ in_range v.
Proof.
  intros Ha Hd. unfold round_pos, in_range, max_double.
  pose proof (ilog2_ratio_spec a d Ha Hd) as S. cbv zeta in S.
  set (l := ilog2_ratio a d) in *.
  set (e := Z.max (l - 52) (-1074)).
  assert (P970 : 0 < 2 ^ 970) by (apply pow2_pos; lia).
  assert (E1024 : 2 ^ 1024 = 2 ^ 970 * 2 ^ 54) by reflexivity.
  assert (E971 : 2 ^ 971 = 2 ^ 970 * 2) by reflexivity.
  assert (E54 : 2 ^ 54 = 2 * 2 ^ 53) by reflexivity.
  assert (E53 : 2 ^ 53 = 2 * 2 ^ 52) by reflexivity.
  assert (P52 : 0 < 2 ^ 52) by reflexivity.
  destruct (Z.leb_spec 0 e) as [He|He].
  - assert (El : e = l - 52) by lia.
    destruct S as [[S1 S2] _]; [lia|].
    pose proof (pow2_pos e He) as Pe.
    assert (E2 : 2 ^ (l + 1) = 2 ^ e * 2 ^ 53)
      by (rewrite <- Z.pow_add_r by lia; f_equal; lia).
    assert (E3 : 2 ^ l = 2 ^ e * 2 ^ 52)
      by (rewrite <- Z.pow_add_r by lia; f_equal; lia).
    set (m := div_half_even a (d * 2 ^ e)).
    assert (U : m <= 2 ^ 53) by (apply div_half_even_upper; nia).
    assert (L : 2 ^ 52 <= m) by (apply div_half_even_lower; nia).
    destruct (Z.leb_spec (2 ^ 1024) (m * 2 ^ e)) as [O|O]; [discriminate|].
    intros [= <-]. cbn [Qnum Qden inject_Z]. split; [nia|].
    rewrite Z.abs_eq by nia.
    destruct (Z.lt_trichotomy e 971) as [C|[C|C]].
    + assert (2 ^ e * 2 <= 2 ^ 971) by (apply pow2_double_le; lia). nia.
    + rewrite C in *. nia.
    + assert (2 ^ 972 <= 2 ^ e) by (apply Z.pow_le_mono_r; lia).
      assert (2 ^ 972 = 2 ^ 970 * 4) by reflexivity. nia.
  - set (m := div_half_even (a * 2 ^ (- e)) d).
    intros E.
    assert (Ev : v = Qred (m # Z.to_pos (2 ^ (- e)))) by congruence.
    clear E.
    pose proof (pow2_double_le 0 (- e) ltac:(lia)) as Pe.
    change (2 ^ 0 * 2) with 2 in Pe.
    assert (L : 0 <= m) by (apply div_half_even_lower; nia).
    assert (U : m <= 2 ^ 53).
    { apply div_half_even_upper; [lia|].
      assert (M : 2 ^ (- e) <= 2 ^ (52 - l))
        by (apply Z.pow_le_mono_r; lia).
      destruct (Z.le_gt_cases 0 l) as [Hl|Hl].
      - destruct S as [[S1 S2] _]; [lia|].
        assert (E1 : 2 ^ 53 = 2 ^ (l + 1) * 2 ^ (52 - l))
          by (rewrite <- Z.pow_add_r by lia; f_equal; lia).
        pose proof (pow2_pos (l + 1) ltac:(lia)). nia.
      - destruct S as [_ [S1 S2]]; [lia|].
        assert (E1 : 2 ^ (52 - l) = 2 ^ (- l - 1) * 2 ^ 53)
          by (rewrite <- Z.pow_add_r by lia; f_equal; lia).
        pose proof (pow2_pos (- l - 1) ltac:(lia)).
        assert (a * 2 ^ (- e) <= a * 2 ^ (52 - l)) by nia.
        assert (a * 2 ^ (52 - l) = (a * 2 ^ (- l - 1)) * 2 ^ 53) by nia.
        nia. }
    pose proof (Qred_correct (m # Z.to_pos (2 ^ (- e)))) as R.
    rewrite <- Ev in R. unfold Qeq in R. cbn [Qnum Qden] in R.
    rewrite Z2Pos.id in R by lia.
    pose proof (Pos2Z.is_pos (Qden v)) as Pv.
    assert (N : 0 <= Qnum v) by nia.
    split; [exact N|]. rewrite Z.abs_eq by exact N. nia.
Qed.

Lemma in_range_opp (q : Q) : in_range q -> in_range (- q).
Proof. unfold in_range. cbn [Qopp Qnum Qden]. lia. Qed.

Lemma round_Q_in_range (x v : Q) : round_Q x = inr v -> in_range v.
Proof.
  unfold round_Q. destruct (Z.eqb_spec (Qnum x) 0) as [Z0|Z0].
  - intros [= <-]. unfold in_range, max_double. cbn. lia.
  - destruct (round_pos _ _) as [v0|] eqn:E; [|discriminate].
    apply round_pos_bound in E; try lia.
    destruct (Qnum x <? 0); intros [= <-];
      [apply in_range_opp|]; apply E.
Qed.

Lemma round_Q_overflow (x : Q) :
  (exists s, round_Q x = inl s) <-> QDen x * overflow_threshold <= Z.abs (Qnum x).
Proof.
  unfold round_Q. destruct (Z.eqb_spec (Qnum x) 0) as [Z0|Z0].
  - rewrite Z0. unfold overflow_threshold. cbn [Z.abs].
    split; [intros [s [=]]|].
    assert (0 < 2 ^ 1024 - 2 ^ 970) by reflexivity. nia.
  - rewrite <- round_pos_overflow by lia.
    destruct (round_pos _ _); split; eauto; try discriminate.
    intros [s [=]].
Qed.

Lemma finite_wf (x : float) : finite x -> wf x.
Proof. destruct x; simpl; tauto. Qed.

Lemma wf_not_nan (x : float) : wf x -> is_nan x = false.
Proof. destruct x; simpl; tauto. Qed.

Lemma of_Q_wf (x : Q) : wf (of_Q x).
Proof.
  unfold of_Q. destruct (round_Q x) eqn:E; simpl; [exact I|].
  eapply round_Q_in_range, E.
Qed.

Lemma of_int_finite (n : Z) (x : float) : of_int n = Ok x -> finite x.
Proof.
  unfold of_int. destruct (round_Q _) eqn:E; [discriminate|].
  intros [= <-]. simpl. eapply round_Q_in_range, E.
Qed.

Lemma of_int_ok (n : Z) :
  (exists x, of_int n = Ok x) <-> Z.abs n < overflow_threshold.
Proof.
  unfold of_int.
  pose proof (round_Q_overflow (inject_Z n)) as H.
  cbn [inject_Z Qnum Qden] in H.
  destruct (round_Q (inject_Z n)) as [s|v].
  - split; [intros [x [=]]|]. intros L.
    assert (1 * overflow_threshold <= Z.abs n) by (apply H; eauto). lia.
  - split; [intros _|eauto].
    destruct (Z.lt_ge_cases (Z.abs n) overflow_threshold) as [|G]; [assumption|].
    destruct H as [_ H]. destruct H as [s [=]]. lia.
Qed.

(** A product with a factor of at most one half does not overflow. *)
Lemma fmul_small (a b : Q) :
  in_range a -> 2 * Z.abs (Qnum b) <= QDen b ->
  finite (fmul (Fin a) (Fin b)).
Proof.
  intros Ha Hb. unfold fmul, of_Q.
  destruct (round_Q (a * b)) as [s|v] eqn:E.
  - exfalso.
    assert (O : exists s, round_Q (a * b) = inl s) by eauto.
    apply round_Q_overflow in O. unfold in_range in Ha.
    cbn [Qmult Qnum Qden] in O. rewrite Pos2Z.inj_mul, Z.abs_mul in O.
    unfold overflow_threshold, max_double in *.
    assert (E1024 : 2 ^ 1024 = 2 ^ 970 * 2 ^ 54) by reflexivity.
    assert (E971 : 2 ^ 971 = 2 ^ 970 * 2) by reflexivity.
    assert (P970 : 0 < 2 ^ 970) by reflexivity.
    assert (P54 : 4 < 2 ^ 54) by reflexivity.
    pose proof (Pos2Z.is_pos (Qden a)). pose proof (Pos2Z.is_pos (Qden b)).
    pose proof (Z.abs_nonneg (Qnum a)). pose proof (Z.abs_nonneg (Qnum b)).
    set (M := 2 ^ 970 * 2 ^ 54 - 2 ^ 970 * 2) in *.
    assert (2 * (Z.abs (Qnum a) * Z.abs (Qnum b))
            <= M * (QDen a * QDen b)).
    { transitivity (Z.abs (Qnum a) * QDen b); [nia|].
      transitivity (M * QDen a * QDen b); [|lia].
      apply Z.mul_le_mono_nonneg_r; lia. }
    assert (0 < QDen a * QDen b) by nia.
    rewrite E1024 in O. nia.
  - simpl. eapply round_Q_in_range, E.
Qed.

Lemma fadd_finite_wf (x y : float) : wf x -> finite y -> wf (fadd x y).
Proof.
  destruct x as [a|s|], y as [b|s'|]; simpl; try tauto.
  intros _ _. apply of_Q_wf.
Qed.

Lemma fadd_finite (a b : Q) : wf (fadd (Fin a) (Fin b)).
Proof. apply of_Q_wf. Qed.

(** [round] does not overflow on a float within range. *)
Lemma round_wf (x : float) (ndigits : nat) :
  wf x -> exists v, round x ndigits = Ok v /\ wf v.
Proof.
  destruct x as [q|s|]; simpl; [|eauto|tauto].
  intros Hq. set (scale := 10 ^ Z.of_nat ndigits).
  assert (Ps : 0 < scale) by (apply Z.pow_pos_nonneg; lia).
  set (k := div_half_even (Qnum q * scale) (QDen q)).
  destruct (round_Q (k # Z.to_pos scale)) as [s|v] eqn:E.
  - exfalso.
    assert (O : exists s, round_Q (k # Z.to_pos scale) = inl s) by eauto.
    apply round_Q_overflow in O. cbn [Qnum Qden] in O.
    rewrite Z2Pos.id in O by lia.
    unfold in_range in Hq.
    pose proof (Pos2Z.is_pos (Qden q)) as Pq.
    assert (U : k <= max_double * scale)
      by (apply div_half_even_upper; [lia|]; nia).
    assert (L : - (max_double * scale) <= k)
      by (apply div_half_even_lower; [lia|]; nia).
    assert (max_double < overflow_threshold) by reflexivity.
    nia.
  - eexists. split; [reflexivity|]. simpl. eapply round_Q_in_range, E.
Qed.


(** A rational of at least 1 rounds to a positive double. *)
Lemma round_pos_positive (a d : Z) (v : Q) :
  0 < d -> d <= a -> round_pos a d = Some v -> 0 < Qnum v.
Proof.
  intros Hd Ha. unfold round_pos.
  pose proof (ilog2_ratio_spec a d ltac:(lia) Hd) as S. cbv zeta in S.
  set (l := ilog2_ratio a d) in *.
  assert (Hl : 0 <= l).
  { destruct (Z.le_gt_cases 0 l) as [|G]; [assumption|].
    destruct S as [_ [_ S2]]; [lia|].
    pose proof (pow2_pos (- l - 1) ltac:(lia)). nia. }
  destruct S as [[S1 _] _]; [lia|].
  set (e := Z.max (l - 52) (-1074)).
  assert (El : e = l - 52) by lia.
  assert (P52 : 0 < 2 ^ 52) by reflexivity.
  destruct (Z.leb_spec 0 e) as [He|He].
  - pose proof (pow2_pos e He) as Pe.
    assert (E3 : 2 ^ l = 2 ^ e * 2 ^ 52)
      by (rewrite <- Z.pow_add_r by lia; f_equal; lia).
    set (m := div_half_even a (d * 2 ^ e)).
    assert (L : 2 ^ 52 <= m) by (apply div_half_even_lower; nia).
    destruct (2 ^ 1024 <=? m * 2 ^ e); [discriminate|].
    intros [= <-]. cbn [Qnum inject_Z]. nia.
  - set (m := div_half_even (a * 2 ^ (- e)) d).
    intros E.
    assert (Ev : v = Qred (m # Z.to_pos (2 ^ (- e)))) by congruence.
    clear E.
    pose proof (pow2_pos (- e) ltac:(lia)) as Pe.
    pose proof (pow2_pos l Hl) as Pl.
    assert (E3 : 2 ^ 52 = 2 ^ l * 2 ^ (- e))
      by (rewrite <- Z.pow_add_r by lia; f_equal; lia).
    assert (L : 2 ^ 52 <= m) by (apply div_half_even_lower; nia).
    pose proof (Qred_correct (m # Z.to_pos (2 ^ (- e)))) as R.
    rewrite <- Ev in R. unfold Qeq in R. cbn [Qnum Qden] in R.
    rewrite Z2Pos.id in R by lia.
    pose proof (Pos2Z.is_pos (Qden v)) as Pv. nia.
Qed.

Lemma of_int_positive (n : Z) (x : float) :
  1 <= n -> of_int n = Ok x ->
  exists q, x = Fin q /\ in_range q /\ Qzero q = false.
Proof.
  intros Hn. unfold of_int, round_Q. cbn [inject_Z Qnum Qden].
  destruct (Z.eqb_spec n 0); [lia|].
  destruct (round_pos _ _) as [v|] eqn:E; [|discriminate].
  destruct (Z.ltb_spec n 0); [lia|]. intros [= <-].
  rewrite Z.abs_eq in E by lia.
  exists v. split; [reflexivity|]. split.
  - apply round_pos_bound in E; [apply E|lia|lia].
  - apply round_pos_positive in E; [|lia|lia].
    unfold Qzero. destruct (Z.eqb_spec (Qnum v) 0); [lia|reflexivity].
Qed.

Lemma in_range_0 : in_range 0.
Proof. unfold in_range, max_double. cbn. lia. Qed.

Lemma of_Q_representable (x : Q) : representable (of_Q x).
Proof. pose proof (of_Q_wf x). destruct (of_Q x); simpl in *; tauto. Qed.

Lemma fdiv_representable (x y z : float) :
  fdiv x y = Ok z -> representable z.
Proof.
  unfold fdiv. destruct y as [b|s|].
  - destruct (Qzero b); [discriminate|].
    destruct x; intros [= <-]; simpl; auto. apply of_Q_representable.
  - destruct x; intros [= <-]; simpl; auto. apply in_range_0.
  - intros [= <-]. exact I.
Qed.

Lemma round_total (x : float) (ndigits : nat) :
  representable x -> exists v, round x ndigits = Ok v.
Proof.
  destruct x as [q|s|]; [|cbn; eauto..].
  intros H. destruct (round_wf (Fin q) ndigits H) as (v & E & _). eauto.
Qed.

Lemma div_int_ok (x : float) (n : Z) :
  1 <= n -> Z.abs n < overflow_threshold ->
  exists z, div_int x n = Ok z /\ representable z.
Proof.
  intros H1 H2. unfold div_int.
  destruct (proj2 (of_int_ok n) H2) as [y Ey]. rewrite Ey.
  destruct (of_int_positive _ _ H1 Ey) as (q & -> & _ & Hq).
  destruct (fdiv x (Fin q)) as [z|e] eqn:E.
  - exists z. split; [reflexivity|]. eapply fdiv_representable, E.
  - unfold fdiv in E. rewrite Hq in E. destruct x; discriminate.
Qed.

Lemma int_true_div_ok (a b : Z) :
  1 <= b -> Z.abs a < b * overflow_threshold ->
  exists z, int_true_div a b = Ok z /\ representable z.
Proof.
  intros Hb Ha. unfold int_true_div.
  destruct (Z.eqb_spec b 0); [lia|].
  destruct (round_Q _) as [s|v] eqn:E.
  - exfalso.
    assert (O : exists s, round_Q (a * Z.sgn b # Z.to_pos (Z.abs b)) = inl s)
      by eauto.
    apply round_Q_overflow in O. cbn [Qnum Qden] in O.
    rewrite Z2Pos.id in O by lia.
    rewrite Z.sgn_pos, Z.mul_1_r, (Z.abs_eq b) in O by lia. lia.
  - eexists. split; [reflexivity|]. simpl. eapply round_Q_in_range, E.
Qed.

(* ================================================================== *)
(** * Properties *)


(** ** Effort efficiency *)


(** C9: for every integer [effort], inside the 1-10 scale or not,
    [calculate_effort_efficiency effort] is [10 - effort], so that it and
    the effort add up to 10; nothing is clamped: an effort above 10 gives
    a negative efficiency and an effort below 1 gives one above 9. *)
Theorem calculate_effort_efficiency_spec (effort : Z) :
  calculate_effort_efficiency effort = 10 - effort
  /\ calculate_effort_efficiency effort + effort = 10
  /\ (10 < effort <-> calculate_effort_efficiency effort < 0)
  /\ (effort < 1 <-> 9 < calculate_effort_efficiency effort).
Proof.
  unfold calculate_effort_efficiency. lia.
Qed.

Lemma calculate_effort_efficiency_spec_witness :
  calculate_effort_efficiency 11 < 0 /\ 9 < calculate_effort_efficiency 0.
Proof.
  split.
  - apply (proj1 (proj1 (proj2 (proj2 (calculate_effort_efficiency_spec 11))))).
    lia.
  - apply (proj1 (proj2 (proj2 (proj2 (calculate_effort_efficiency_spec 0))))).
    lia.
Defined.

(** ** The deadline factor *)
Lemma strptime_raises (deadline_str : string) (w : world) :
  strptime deadline_str = None ->
  calculate_deadline_factor deadline_str w
  = (Ok (literal 5 1), printed (warning deadline_str) w).
Proof.
  intros H. unfold calculate_deadline_factor, try_except, bind.
  rewrite H. reflexivity.
Qed.

Lemma strptime_parses (deadline_str : string) (d : datetime) (w : world) :
  strptime deadline_str = Some d ->
  calculate_deadline_factor deadline_str w
  = (Ok (deadline_table (timedelta_days (d - clock w O))), ticked w).
Proof.
  intros H. unfold calculate_deadline_factor, try_except, bind.
  rewrite H. cbn [ret now fst snd]. unfold deadline_table.
  repeat match goal with
         | |- context [if ?b then _ else _] => destruct b
         end; reflexivity.
Qed.

Lemma deadline_table_spec (days_until : Z) :
  deadline_table days_until = spec_deadline_table days_until.
Proof.
  unfold deadline_table, spec_deadline_table.
  destruct (Z.ltb_spec days_until 0), (Z.eqb_spec days_until 0),
    (Z.leb_spec days_until 0); try lia; reflexivity.
Qed.

(** The factor never raises, whatever the string and the clock. *)
Lemma calculate_deadline_factor_returns (deadline_str : string) (w : world) :
  exists x, fst (calculate_deadline_factor deadline_str w) = Ok x.
Proof.
  destruct (strptime deadline_str) as [d|] eqn:H.
  - rewrite (strptime_parses _ _ _ H). cbn [fst]. eauto.
  - rewrite (strptime_raises _ _ H). cbn [fst]. eauto.
Qed.

(** The code's day count is the difference of the dates, less one unless
    [now] is exactly midnight. *)
Lemma timedelta_days_midnight (deadline now : datetime) :
  time_of_day deadline = 0 ->
  timedelta_days (deadline - now)
  = spec_days_until deadline now - (if time_of_day now =? 0 then 0 else 1).
Proof.
  unfold timedelta_days, spec_days_until, ordinal_of, time_of_day, day_us.
  set (D := 86400 * 1000000). assert (HD : 0 < D) by (subst D; lia).
  intros Hd.
  pose proof (Z.div_mod deadline D ltac:(lia)) as E1.
  pose proof (Z.div_mod now D ltac:(lia)) as E2.
  pose proof (Z.mod_pos_bound now D HD) as B2.
  rewrite Hd in E1.
  destruct (Z.eqb_spec (now mod D) 0) as [E|E].
  - symmetry. apply (Z.div_unique _ _ _ 0); lia.
  - symmetry. apply (Z.div_unique _ _ _ (D - now mod D)); lia.
Qed.

Lemma make_date_midnight (year month day : Z) (d : datetime) :
  make_date year month day = Some d -> time_of_day d = 0.
Proof.
  unfold make_date. destruct (_ && _); [|discriminate].
  intros [= <-]. unfold time_of_day. apply Z.mod_mul. discriminate.
Qed.

Lemma strptime_midnight (s : string) (d : datetime) :
  strptime s = Some d -> time_of_day d = 0.
Proof.
  unfold strptime.
  destruct (match_Y _) as [[year s1]|]; [|discriminate].
  destruct (match_dash s1) as [s2|]; [|discriminate].
  destruct (match_m s2) as [[month s3]|]; [|discriminate].
  destruct (match_dash s3) as [s4|]; [|discriminate].
  destruct (match_d s4) as [[day [|c s5]]|]; try discriminate.
  apply make_date_midnight.
Qed.

(** The code's factor in the terms of the specification: its table, on
    the date difference less one unless [now] is exactly midnight. *)
Lemma calculate_deadline_factor_days (deadline_str : string) (d : datetime)
    (w : world) :
  strptime deadline_str = Some d ->
  calculate_deadline_factor deadline_str w
  = (Ok (spec_deadline_table
           (spec_days_until d (clock w O)
            - (if time_of_day (clock w O) =? 0 then 0 else 1))),
     ticked w).
Proof.
  intros H. rewrite (strptime_parses _ _ _ H), deadline_table_spec.
  rewrite (timedelta_days_midnight _ _ (strptime_midnight _ _ H)).
  reflexivity.
Qed.

(** C2: at noon of 2026-11-03 the deadline "2026-11-04" is one calendar
    day away, for which the table of the specification gives 9.0 ("due
    tomorrow"); the code counts the whole days of the twelve hours that
    remain, which is 0, and returns 10.0 ("due today"). *)
Theorem deadline_tomorrow_scored_as_today :
  strptime "2026-11-04" = Some (ymd2ord 2026 11 4 * day_us)
  /\ spec_days_until (ymd2ord 2026 11 4 * day_us) noon_2026_11_03 = 1
  /\ spec_deadline_table 1 = literal 9 1
  /\ fst (calculate_deadline_factor "2026-11-04" (idle_world noon_2026_11_03))
     = Ok (literal 10 1)
  /\ literal 10 1 <> literal 9 1.
Proof.
  repeat split; try (vm_compute; reflexivity).
  vm_compute. discriminate.
Qed.




Lemma weights_small :
  small (literal 4 10) /\ small (literal 3 10) /\ small (literal 2 10)
  /\ small (literal 1 10).
Proof. repeat split; vm_compute; discriminate. Qed.

Lemma fmul_finite_small (x y : float) : finite x -> small y -> finite (fmul x y).
Proof.
  destruct x as [a| |], y as [b| |]; simpl; try tauto.
  apply fmul_small.
Qed.

Lemma int_mul_finite (n : Z) (w a : float) :
  small w -> int_mul n w = Ok a -> finite a.
Proof.
  intros Hw. unfold int_mul. destruct (of_int n) as [x|e] eqn:E; [|discriminate].
  intros [= <-]. apply fmul_finite_small; [|exact Hw].
  eapply of_int_finite, E.
Qed.

Lemma int_mul_ok (n : Z) (w : float) :
  (exists a, int_mul n w = Ok a) <-> Z.abs n < overflow_threshold.
Proof.
  rewrite <- of_int_ok. unfold int_mul.
  destruct (of_int n); split; intros [x [=]]; eauto.
Qed.

Lemma deadline_table_finite (days_until : Z) : finite (deadline_table days_until).
Proof.
  unfold deadline_table.
  repeat match goal with
         | |- context [if ?b then _ else _] => destruct b
         end; vm_compute; discriminate.
Qed.

Lemma calculate_deadline_factor_finite (s : string) (w w' : world) (x : float) :
  calculate_deadline_factor s w = (Ok x, w') -> finite x.
Proof.
  destruct (strptime s) as [d|] eqn:H.
  - rewrite (strptime_parses _ _ _ H). intros [= <- _]. apply deadline_table_finite.
  - rewrite (strptime_raises _ _ H). intros [= <- _]. vm_compute. discriminate.
Qed.

(** The formula returns a float that is not NaN, and raises only if one of
    the three integers is too large for a float. *)
Lemma spec_score_wf (u i : Z) (df : float) (ee : Z) (v : float) :
  finite df -> spec_score u i df ee = Ok v -> wf v.
Proof.
  intros Hdf. unfold spec_score, rbind.
  destruct weights_small as (W4 & W3 & W2 & W1).
  destruct (int_mul u _) as [a|] eqn:Ea; [|discriminate].
  destruct (int_mul i _) as [b|] eqn:Eb; [|discriminate].
  destruct (int_mul ee _) as [d|] eqn:Ed; [|discriminate].
  apply (int_mul_finite _ _ _ W4) in Ea.
  apply (int_mul_finite _ _ _ W3) in Eb.
  apply (int_mul_finite _ _ _ W1) in Ed.
  pose proof (fmul_finite_small _ _ Hdf W2) as Hc.
  set (z := fadd _ d).
  assert (Hz : wf z).
  { subst z. repeat apply fadd_finite_wf; try assumption.
    now apply finite_wf. }
  destruct (round_wf z 2 Hz) as (v' & E & Hv). rewrite E. now intros [= <-].
Qed.

Lemma spec_score_ok (u i : Z) (df : float) (ee : Z) :
  finite df ->
  ((exists v, spec_score u i df ee = Ok v)
   <-> Z.abs u < overflow_threshold /\ Z.abs i < overflow_threshold
       /\ Z.abs ee < overflow_threshold).
Proof.
  intros Hdf. rewrite <- !(int_mul_ok u (literal 4 10)).
  rewrite <- !(int_mul_ok i (literal 3 10)).
  rewrite <- !(int_mul_ok ee (literal 1 10)).
  destruct weights_small as (W4 & W3 & W2 & W1).
  split.
  - intros [v H]. unfold spec_score, rbind in H.
    destruct (int_mul u _) as [a|] eqn:Ea; [|discriminate].
    destruct (int_mul i _) as [b|] eqn:Eb; [|discriminate].
    destruct (int_mul ee _) as [d|] eqn:Ed; [|discriminate].
    repeat split; eexists; reflexivity.
  - intros ([a Ea] & [b Eb] & [d Ed]). unfold spec_score, rbind.
    rewrite Ea, Eb, Ed.
    apply (int_mul_finite _ _ _ W4) in Ea.
    apply (int_mul_finite _ _ _ W3) in Eb.
    apply (int_mul_finite _ _ _ W1) in Ed.
    pose proof (fmul_finite_small _ _ Hdf W2) as Hc.
    set (z := fadd _ d).
    assert (Hz : wf z).
    { subst z. repeat apply fadd_finite_wf; try assumption.
      now apply finite_wf. }
    destruct (round_wf z 2 Hz) as (v' & E & Hv). eauto.
Qed.

(** The statements of [calculate_task_score] after the call of
    [calculate_deadline_factor] are the formula of the specification. *)
Lemma calculate_task_score_after_factor (task : Task) (w w' : world)
    (deadline_factor : float) :
  calculate_deadline_factor (deadline task) w = (Ok deadline_factor, w') ->
  calculate_task_score task w
  = (spec_score (urgency task) (importance task) deadline_factor
                (calculate_effort_efficiency (effort task)), w').
Proof.
  intros H. unfold calculate_task_score, bind. rewrite H.
  unfold spec_score, rbind, lift, URGENCY_WEIGHT, IMPORTANCE_WEIGHT,
    DEADLINE_WEIGHT, EFFORT_WEIGHT.
  destruct (int_mul (urgency task) _); [|reflexivity].
  destruct (int_mul (importance task) _); [|reflexivity].
  destruct (int_mul (calculate_effort_efficiency _) _); reflexivity.
Qed.

Lemma calculate_deadline_factor_total (deadline_str : string) (w : world) :
  exists x w', calculate_deadline_factor deadline_str w = (Ok x, w').
Proof.
  destruct (strptime deadline_str) as [d|] eqn:H.
  - rewrite (strptime_parses _ _ _ H). eauto.
  - rewrite (strptime_raises _ _ H). eauto.
Qed.

(** [calculate_task_score] reads the clock or prints a warning; it
    leaves the heap and the scorer alone. *)
Lemma calculate_task_score_world (task : Task) (w : world) :
  exists (deadline_factor : float) (w' : world),
    finite deadline_factor
    /\ calculate_task_score task w
       = (spec_score (urgency task) (importance task) deadline_factor
            (calculate_effort_efficiency (effort task)), w')
    /\ heap w' = heap w /\ tasks w' = tasks w
    /\ next_ref w' = next_ref w /\ files w' = files w.
Proof.
  destruct (strptime (deadline task)) as [d|] eqn:H.
  - pose proof (strptime_parses _ _ w H) as E.
    eexists _, _. split; [eapply calculate_deadline_factor_finite, E|].
    split; [apply (calculate_task_score_after_factor _ _ _ _ E)|].
    repeat split.
  - pose proof (strptime_raises _ w H) as E.
    eexists _, _. split; [eapply calculate_deadline_factor_finite, E|].
    split; [apply (calculate_task_score_after_factor _ _ _ _ E)|].
    repeat split.
Qed.

(** [calculate_task_score] returns a score, and one that is a number,
    exactly when the three integers it multiplies are within the range
    of the floats. *)
Lemma calculate_task_score_returns (task : Task) (w : world) :
  (exists (v : float) (w' : world),
     calculate_task_score task w = (Ok v, w') /\ is_nan v = false)
  <-> Z.abs (urgency task) < overflow_threshold
      /\ Z.abs (importance task) < overflow_threshold
      /\ Z.abs (calculate_effort_efficiency (effort task))
         < overflow_threshold.
Proof.
  destruct (calculate_task_score_world task w)
    as (df & w0 & Hdf & E & _).
  rewrite <- (spec_score_ok _ _ _ _ Hdf), E. split.
  - intros (v & w' & [= H _] & _). eauto.
  - intros [v H]. exists v, w0. rewrite H. split; [reflexivity|].
    eapply wf_not_nan, spec_score_wf; eassumption.
Qed.

Lemma float_eqb_eq (x y : float) : float_eqb x y = true -> x = y.
Proof.
  destruct x as [[a p]|s|], y as [[b q]|s'|]; cbn; try discriminate.
  - intros H. apply andb_prop in H. destruct H as [H1 H2].
    apply Z.eqb_eq in H1. apply Pos.eqb_eq in H2. now subst.
  - intros H. apply eqb_prop in H. now subst.
  - reflexivity.
Qed.

Lemma staged_check_sound (us is_ es fs : list Z) (u i e f : Z) :
  staged_check us is_ es fs = true ->
  In u us -> In i is_ -> In e es -> In f fs ->
  spec_score u i (literal f 1) (calculate_effort_efficiency e)
  = Ok (literal (exact_tenths u i f e) 10).
Proof.
  intros C Hu Hi He Hf.
  unfold staged_check in C. cbv zeta in C.
  rewrite forallb_forall in C. specialize (C u Hu).
  unfold spec_score, rbind.
  destruct (int_mul u _) as [a|]; [|discriminate].
  rewrite forallb_forall in C. specialize (C i Hi).
  destruct (int_mul i _) as [b|]; [|discriminate].
  rewrite forallb_forall in C.
  specialize (C (f, fmul (literal f 1) (literal 2 10))
                (in_map (fun f => (f, fmul (literal f 1) (literal 2 10)))
                        _ _ Hf)).
  rewrite forallb_forall in C.
  specialize (C (e, int_mul (calculate_effort_efficiency e) (literal 1 10))
                (in_map (fun e => (e, int_mul (calculate_effort_efficiency e)
                                              (literal 1 10))) _ _ He)).
  cbn [fst snd] in C.
  destruct (int_mul (calculate_effort_efficiency e) _) as [d|];
    [|discriminate].
  destruct (round _ 2) as [v|]; [|discriminate].
  f_equal. now apply float_eqb_eq.
Qed.

Lemma staged_check_true :
  staged_check scale_1_10 scale_1_10 scale_1_10 factor_values = true.
Proof. vm_cast_no_check (eq_refl true). Qed.

Lemma scale_1_10_spec (n : Z) : 1 <= n <= 10 -> In n scale_1_10.
Proof. unfold scale_1_10. cbn. lia. Qed.

(** On the 1-10 scale the formula in floats gives the double nearest to
    the exact decimal value of the weighted sum. *)
Lemma spec_score_nominal (u i e f : Z) :
  1 <= u <= 10 -> 1 <= i <= 10 -> 1 <= e <= 10 -> In f factor_values ->
  spec_score u i (literal f 1) (calculate_effort_efficiency e)
  = Ok (literal (exact_tenths u i f e) 10).
Proof.
  intros Hu Hi He Hf.
  apply (staged_check_sound _ _ _ _ u i e f staged_check_true);
    auto using scale_1_10_spec.
Qed.

Lemma deadline_table_values (days_until : Z) :
  exists f : Z, In f factor_values /\ deadline_table days_until = literal f 1.
Proof.
  unfold deadline_table, factor_values.
  repeat match goal with
         | |- context [if ?b then _ else _] => destruct b
         end; eexists; (split; [|reflexivity]); cbn; tauto.
Qed.

Lemma calculate_deadline_factor_values (deadline_str : string) (w : world) :
  exists (f : Z) (w' : world),
    In f factor_values
    /\ calculate_deadline_factor deadline_str w = (Ok (literal f 1), w').
Proof.
  destruct (strptime deadline_str) as [d|] eqn:H.
  - rewrite (strptime_parses _ _ _ H).
    destruct (deadline_table_values (timedelta_days (d - clock w O)))
      as (f & Hf & ->).
    eauto.
  - rewrite (strptime_raises _ _ H). exists 5. eexists.
    split; [cbn; tauto|reflexivity].
Qed.

(** A deadline whose date is the date of [now] has factor 10.0, at any
    time of the day. *)
Lemma due_today_factor (deadline_str : string) (d : datetime) (w : world) :
  strptime deadline_str = Some d ->
  ordinal_of d = ordinal_of (clock w O) ->
  calculate_deadline_factor deadline_str w = (Ok (literal 10 1), ticked w).
Proof.
  intros H Hd. rewrite (calculate_deadline_factor_days _ _ _ H).
  unfold spec_days_until. rewrite Hd, Z.sub_diag.
  destruct (_ =? 0); reflexivity.
Qed.

(** C1: for every task and every state of the interpreter,
    [calculate_task_score] returns what the formula
    [urgency*0.4 + importance*0.3 + deadline_factor*0.2 +
     effort_efficiency*0.1], rounded to 2 decimals, evaluates to, where
    [deadline_factor] is the value [calculate_deadline_factor] returns
    for the task's deadline and [effort_efficiency] is
    [calculate_effort_efficiency] of its effort.  In particular a task
    with urgency 10, importance 10 and effort 1 whose deadline is the
    date of today has deadline factor 10.0, effort efficiency 9 and the
    score 9.90 exactly.  The function returns a score (a number, not an
    exception) for every task whose three integers are within the range
    of the floats; on the 1-10 scale that score is the double nearest
    to the exact value of the weighted sum, a number of tenths. *)
Theorem calculate_task_score_formula :
  (forall (task : Task) (w : world),
     exists (deadline_factor : float) (w' : world),
       calculate_deadline_factor (deadline task) w = (Ok deadline_factor, w')
       /\ calculate_task_score task w
          = (spec_score (urgency task) (importance task) deadline_factor
               (calculate_effort_efficiency (effort task)), w'))
  /\ (forall (task : Task) (w : world) (d : datetime),
        urgency task = 10 -> importance task = 10 -> effort task = 1 ->
        strptime (deadline task) = Some d ->
        ordinal_of d = ordinal_of (clock w O) ->
        calculate_deadline_factor (deadline task) w
        = (Ok (literal 10 1), ticked w)
        /\ calculate_effort_efficiency (effort task) = 9
        /\ calculate_task_score task w = (Ok (literal 990 100), ticked w))
  /\ (forall (task : Task) (w : world),
        Z.abs (urgency task) < overflow_threshold ->
        Z.abs (importance task) < overflow_threshold ->
        Z.abs (calculate_effort_efficiency (effort task))
        < overflow_threshold ->
        exists (v : float) (w' : world),
          calculate_task_score task w = (Ok v, w') /\ is_nan v = false)
  /\ (forall (task : Task) (w : world),
        1 <= urgency task <= 10 -> 1 <= importance task <= 10 ->
        1 <= effort task <= 10 ->
        exists (f : Z) (w' : world),
          In f factor_values
          /\ calculate_deadline_factor (deadline task) w
             = (Ok (literal f 1), w')
          /\ calculate_task_score task w
             = (Ok (literal (exact_tenths (urgency task) (importance task)
                                          f (effort task)) 10), w')).
Proof.
  split; [|split; [|split]].
  - intros task w.
    destruct (calculate_deadline_factor_total (deadline task) w)
      as (x & w' & H).
    exists x, w'. split; [exact H|].
    now apply calculate_task_score_after_factor.
  - intros task w d Hu Hi He Hs Hd.
    pose proof (due_today_factor _ _ _ Hs Hd) as H.
    split; [exact H|]. split; [rewrite He; reflexivity|].
    rewrite (calculate_task_score_after_factor _ _ _ _ H), Hu, Hi, He.
    f_equal.
  - intros task w Hu Hi He. apply calculate_task_score_returns. auto.
  - intros task w Hu Hi He.
    destruct (calculate_deadline_factor_values (deadline task) w)
      as (f & w' & Hf & E).
    exists f, w'. split; [exact Hf|]. split; [exact E|].
    rewrite (calculate_task_score_after_factor _ _ _ _ E).
    f_equal. now apply spec_score_nominal.
Qed.

Lemma calculate_task_score_formula_witness :
  calculate_task_score
    (mkTask "release" 10 10 1 "2026-11-03" "todo" "high" (Fin 0))
    (idle_world noon_2026_11_03)
  = (Ok (literal 990 100), ticked (idle_world noon_2026_11_03)).
Proof.
  apply (proj1 (proj2 calculate_task_score_formula)
           (mkTask "release" 10 10 1 "2026-11-03" "todo" "high" (Fin 0))
           (idle_world noon_2026_11_03) (ymd2ord 2026 11 3 * day_us));
    reflexivity.
Defined.



(** ** Statistics of an empty collection *)


(** C6: with no task stored, [get_statistics] returns the dict that has
    the key ["error"], leaves the state as it is and does not raise; in
    particular no [ZeroDivisionError]. *)
Theorem get_statistics_empty (w : world) :
  tasks w = [] ->
  get_statistics w = (Ok (NoData "No tasks to analyze"), w)
  /\ fst (get_statistics w) <> Raise ZeroDivisionError.
Proof.
  intros H. unfold get_statistics, bind, self_tasks. rewrite H.
  split; [reflexivity|discriminate].
Qed.

Lemma get_statistics_empty_witness :
  get_statistics (idle_world noon_2026_11_03)
  = (Ok (NoData "No tasks to analyze"), idle_world noon_2026_11_03).
Proof.
  apply (proj1 (get_statistics_empty (idle_world noon_2026_11_03) eq_refl)).
Defined.

(** ** Loading *)



(** Printing changes the standard output only. *)
Lemma printed_frame (l : line) (w : world) :
  heap (printed l w) = heap w
  /\ next_ref (printed l w) = next_ref w
  /\ tasks (printed l w) = tasks w
  /\ stdout (printed l w) = stdout w ++ [l]
  /\ clock (printed l w) = clock w
  /\ files (printed l w) = files w.
Proof. repeat split. Qed.



(** The model leaves a load in one case only: every constructor call
    has returned, and one of the objects built holds a value of another
    type than annotated, so that Python goes on to store it.  A load
    that ends in an exception or in a handler is followed. *)
Lemma load_not_followed (filepath : string) (w : world) :
  load_tasks_from_json filepath w = None
  <-> exists (data v : json) (items : list json)
             (objects : list (option ref)) (w1 : world),
        files w filepath = Ok data /\ get_tasks data = Ok v
        /\ iterate v = Ok items
        /\ comprehension construct items w = (Ok objects, w1)
        /\ all_typed objects = None.
Proof.
  unfold load_tasks_from_json, ptry_except.
  unfold pbind at 1. unfold total at 1. unfold open_and_load at 1.
  destruct (files w filepath) as [data|e0] eqn:Ef;
    [|split; [discriminate|intros (? & ? & ? & ? & ? & [=] & _)]].
  unfold pbind at 1. unfold total at 1. unfold lift at 1.
  destruct (get_tasks data) as [v|e1] eqn:Eg;
    [|split; [discriminate|
              intros (? & ? & ? & ? & ? & [= <-] & ? & _); congruence]].
  unfold pbind at 1. unfold total at 1. unfold lift at 1.
  destruct (iterate v) as [items|e2] eqn:Ei;
    [|split; [discriminate|
              intros (? & ? & ? & ? & ? & [= <-] & ? & ? & _); congruence]].
  unfold pbind at 1. unfold total at 1.
  destruct (comprehension construct items w) as [r1 w1] eqn:E.
  destruct r1 as [objects|e3];
    [|split; [discriminate|
              intros (? & ? & ? & ? & ? & [= <-] & ? & ? & ? & _);
                congruence]].
  unfold pbind at 1. unfold typed at 1.
  destruct (all_typed objects) as [new_tasks|] eqn:Ea.
  - split; [cbn; discriminate|].
    intros (? & ? & ? & ? & ? & [= <-] & ? & ? & ? & ?). congruence.
  - split; [|reflexivity]. intros _.
    exists data, v, items, objects, w1. auto.
Qed.




(** A load that succeeds replaces the collection by new objects, in the
    order of the file, with the defaults for the fields left out. *)
Example load_two_tasks :
  let document :=
    JObject
      [("tasks",
        JArray
          [JObject [("name", JString "ship release"); ("urgency", JInt 10);
                    ("importance", JInt 10); ("effort", JInt 1);
                    ("deadline", JString "2026-11-03")];
           JObject [("name", JString "water plants"); ("urgency", JInt 1);
                    ("importance", JInt 1); ("effort", JInt 10);
                    ("deadline", JString "2027-01-02");
                    ("status", JString "in_progress")]])] in
  exists w' : world,
    load_tasks_from_json "sample_tasks.json"
      (with_file three_task_world (Ok document))
    = Some (Ok tt, w')
    /\ tasks w' = [3; 4]%nat
    /\ map (heap w') (tasks w')
       = [mkTask "ship release" 10 10 1 "2026-11-03" "todo" "medium" (Fin 0);
          mkTask "water plants" 1 1 10 "2027-01-02" "in_progress" "medium"
                 (Fin 0)]
    /\ stdout w' = [Text "  ✅ Loaded 2 tasks from sample_tasks.json"].
Proof. eexists. repeat split. Qed.

(** A record that gives a field a value of another type than annotated
    is loaded by Python as it is; the typed model does not follow.  When
    a later record lacks a field, the load ends in its [TypeError] and
    the model follows. *)
Example load_untyped_value :
  let untyped :=
    JObject [("name", JString "ship release"); ("urgency", JString "high");
             ("importance", JInt 10); ("effort", JInt 1);
             ("deadline", JString "2026-11-03")] in
  load_tasks_from_json "sample_tasks.json"
    (with_file three_task_world (Ok (JObject [("tasks", JArray [untyped])])))
  = None
  /\ load_tasks_from_json "sample_tasks.json"
       (with_file three_task_world
          (Ok (JObject [("tasks", JArray [untyped; JObject []])])))
     = Some (Raise TypeError,
             with_file three_task_world
               (Ok (JObject [("tasks", JArray [untyped; JObject []])]))).
Proof. split; reflexivity. Qed.
(** ** The order of the floats *)

Ltac qcompare :=
  repeat match goal with
         | H : (_ ?= _)%Q = Lt |- _ => apply Qlt_alt in H
         | H : (_ ?= _)%Q = Eq |- _ => apply Qeq_alt in H
         | H : (_ ?= _)%Q = Gt |- _ => apply Qgt_alt in H
         end.

Ltac float_order :=
  unfold fge, fgt, fle, flt, feq, compare, is_nan; cbv beta iota;
  repeat match goal with
         | |- context [(?a ?= ?b)%Q] =>
             let E := fresh "E" in destruct (a ?= b)%Q eqn:E
         | s : bool |- _ => destruct s
         end;
  cbv beta iota delta [andb Bool.eqb];
  intros; try discriminate; try reflexivity;
  qcompare; try (exfalso; lra); auto.

Lemma flt_false_fle (x y : float) :
  is_nan x = false -> is_nan y = false -> flt x y = false -> fle y x = true.
Proof. destruct x, y; float_order. Qed.

Lemma flt_fle (x y : float) : flt x y = true -> fle x y = true.
Proof. destruct x, y; float_order. Qed.

Lemma fle_trans (x y z : float) :
  fle x y = true -> fle y z = true -> fle x z = true.
Proof. destruct x, y, z; float_order. Qed.

Lemma feq_not_flt (a b s : float) :
  feq a s = true -> feq b s = true -> flt a b = false.
Proof. destruct a, b, s; float_order. Qed.

(** A float that is a number is in exactly one of three intervals cut
    at two numbers [lo <= hi]: at or above [hi], between, below [lo]. *)
Lemma three_way (s lo hi : float) :
  is_nan s = false -> fle lo hi = true ->
  (fge s hi = true /\ (fle lo s && flt s hi) = false /\ flt s lo = false)
  \/ (fge s hi = false /\ (fle lo s && flt s hi) = true /\ flt s lo = false)
  \/ (fge s hi = false /\ (fle lo s && flt s hi) = false /\ flt s lo = true).
Proof.
  destruct s, lo, hi; float_order.
Qed.

(** ** [sorted] *)

Section SortedFacts.
Context {X : Type} (key : X -> float).

Lemma insert_perm (x : X) (l : list X) :
  Permutation (insert key x l) (x :: l).
Proof.
  induction l as [|y l IH]; cbn [insert]; [reflexivity|].
  destruct (flt (key y) (key x)); [|reflexivity].
  rewrite IH. apply perm_swap.
Qed.

Lemma stable_sort_perm (l : list X) : Permutation (stable_sort key l) l.
Proof.
  induction l as [|x l IH]; cbn [stable_sort fold_right]; [reflexivity|].
  fold (stable_sort key l). rewrite insert_perm. now constructor.
Qed.

Lemma sorted_perm (l : list X) (reverse : bool) :
  Permutation (sorted key l reverse) l.
Proof.
  unfold sorted. destruct reverse; [|apply stable_sort_perm].
  rewrite <- Permutation_rev, stable_sort_perm. symmetry.
  apply Permutation_rev.
Qed.

(** Inserting [x] puts it before every item of its own key class that
    is already there. *)
Lemma insert_filter (s : float) (x : X) (l : list X) :
  let p := fun y => feq (key y) s in
  filter p (insert key x l) = filter p (x :: l).
Proof.
  cbv zeta. induction l as [|y l IH]; cbn [insert]; [reflexivity|].
  destruct (flt (key y) (key x)) eqn:L; [|reflexivity].
  cbn [filter] in *. rewrite IH.
  destruct (feq (key x) s) eqn:Ex; [|reflexivity].
  destruct (feq (key y) s) eqn:Ey; [|reflexivity].
  rewrite (feq_not_flt _ _ _ Ey Ex) in L. discriminate.
Qed.

Lemma stable_sort_filter (s : float) (l : list X) :
  let p := fun y => feq (key y) s in
  filter p (stable_sort key l) = filter p l.
Proof.
  cbv zeta. induction l as [|x l IH]; [reflexivity|].
  cbn [stable_sort fold_right]. fold (stable_sort key l).
  rewrite insert_filter. cbn [filter]. now rewrite IH.
Qed.

Lemma filter_rev (p : X -> bool) (l : list X) :
  filter p (rev l) = rev (filter p l).
Proof.
  induction l as [|x l IH]; [reflexivity|].
  cbn [rev filter]. rewrite filter_app, IH. cbn [filter].
  destruct (p x); [reflexivity|]. now rewrite app_nil_r.
Qed.

(** [sorted] is stable, in either direction: the items of one key
    keep their order. *)
Lemma sorted_stable (s : float) (l : list X) (reverse : bool) :
  let p := fun y => feq (key y) s in
  filter p (sorted key l reverse) = filter p l.
Proof.
  cbv zeta. unfold sorted. destruct reverse.
  - rewrite filter_rev, stable_sort_filter, filter_rev. apply rev_involutive.
  - apply stable_sort_filter.
Qed.

Lemma insert_sorted (x : X) (l : list X) :
  is_nan (key x) = false ->
  Forall (fun y => is_nan (key y) = false) l ->
  StronglySorted (key_le key) l -> StronglySorted (key_le key) (insert key x l).
Proof.
  intros Hx. induction l as [|y l IH]; intros Hl Hs; cbn [insert].
  - repeat constructor.
  - inversion Hl as [|? ? Hy Hl']; subst.
    inversion Hs as [|? ? Hs' Hall]; subst.
    destruct (flt (key y) (key x)) eqn:L.
    + constructor; [now apply IH|].
      apply (Permutation_Forall (Permutation_sym (insert_perm x l))).
      constructor; [|exact Hall]. now apply flt_fle.
    + constructor; [exact Hs|].
      assert (Hxy : key_le key x y) by (now apply flt_false_fle).
      constructor; [exact Hxy|].
      eapply Forall_impl; [|exact Hall]. intros z Hz.
      unfold key_le in *. eapply fle_trans; eassumption.
Qed.

Lemma stable_sort_sorted (l : list X) :
  Forall (fun y => is_nan (key y) = false) l ->
  StronglySorted (key_le key) (stable_sort key l).
Proof.
  induction l as [|x l IH]; intros Hl; [constructor|].
  inversion Hl; subst. cbn [stable_sort fold_right].
  fold (stable_sort key l). apply insert_sorted; auto.
  apply (Permutation_Forall (Permutation_sym (stable_sort_perm l))).
  assumption.
Qed.

Lemma StronglySorted_app_one (R : X -> X -> Prop) (l : list X) (x : X) :
  StronglySorted R l -> Forall (fun y => R y x) l ->
  StronglySorted R (l ++ [x]).
Proof.
  induction l as [|y l IH]; intros Hs Hf; cbn [app].
  - repeat constructor.
  - inversion Hs; inversion Hf; subst. constructor; [now apply IH|].
    apply Forall_app. split; [assumption|]. now repeat constructor.
Qed.

Lemma StronglySorted_rev (R : X -> X -> Prop) (l : list X) :
  StronglySorted R l -> StronglySorted (fun a b => R b a) (rev l).
Proof.
  induction 1 as [|x l Hs IH Hf]; cbn [rev]; [constructor|].
  apply StronglySorted_app_one; [exact IH|].
  apply Forall_rev. exact Hf.
Qed.

Lemma sorted_sorted (l : list X) (reverse : bool) :
  Forall (fun y => is_nan (key y) = false) l ->
  StronglySorted (if reverse then key_ge key else key_le key)
                 (sorted key l reverse).
Proof.
  intros Hl. unfold sorted. destruct reverse.
  - apply (StronglySorted_rev (key_le key)).
    apply stable_sort_sorted. now apply Forall_rev.
  - now apply stable_sort_sorted.
Qed.
End SortedFacts.

(** ** Ranking *)

Lemma get_sorted_tasks_eq (w : world) (reverse : bool) :
  get_sorted_tasks reverse w
  = (Ok (sorted (fun t => score (heap w t)) (tasks w) reverse), w).
Proof. reflexivity. Qed.

(** C8: on a scored collection [get_sorted_tasks] returns the stored
    tasks, each as often as it is stored, by decreasing score when
    [reverse] is true (the default) and by increasing score when it is
    false; the sort is stable: for every score, the tasks that have it
    come in the order in which they are stored.  The state is left as it
    is. *)
Theorem get_sorted_tasks_ranked_stable (w : world) (reverse : bool) :
  scored w ->
  exists l : list ref,
    get_sorted_tasks reverse w = (Ok l, w)
    /\ Permutation l (tasks w)
    /\ StronglySorted (ranked w reverse) l
    /\ forall s : float, with_score w s l = with_score w s (tasks w).
Proof.
  intros Hs. eexists. split; [apply get_sorted_tasks_eq|].
  split; [apply sorted_perm|]. split.
  - pose proof (sorted_sorted (fun t => score (heap w t)) (tasks w)
                  reverse Hs) as H.
    destruct reverse; exact H.
  - intros s. apply (sorted_stable (fun t => score (heap w t))).
Qed.

Lemma get_sorted_tasks_ranked_stable_witness :
  scored three_task_world
  /\ exists l : list ref,
       get_sorted_tasks true three_task_world = (Ok l, three_task_world)
       /\ Permutation l (tasks three_task_world)
       /\ StronglySorted (ranked three_task_world true) l
       /\ forall s : float,
            with_score three_task_world s l
            = with_score three_task_world s (tasks three_task_world).
Proof.
  assert (H : scored three_task_world)
    by (repeat (constructor; [reflexivity|]); constructor).
  split; [exact H|].
  apply (get_sorted_tasks_ranked_stable three_task_world true H).
Defined.

Example get_sorted_tasks_example :
  get_sorted_tasks true three_task_world
  = (Ok [1; 0; 2]%nat, three_task_world)
  /\ get_sorted_tasks false three_task_world
     = (Ok [0; 2; 1]%nat, three_task_world).
Proof. split; reflexivity. Qed.

(** ** The top-N selection of [display_results] *)

Lemma bind_print {A} (l : line) (k : unit -> M A) (w : world) :
  bind (print l) k w = k tt (printed l w).
Proof. reflexivity. Qed.

(** [_get_deadline_display] returns a string and prints nothing. *)
Lemma _get_deadline_display_total (deadline_str : string) (w : world) :
  exists (s : string) (w' : world),
    _get_deadline_display deadline_str w = (Ok s, w')
    /\ heap w' = heap w /\ tasks w' = tasks w /\ stdout w' = stdout w.
Proof.
  unfold _get_deadline_display, try_except, bind.
  destruct (strptime deadline_str) as [d|].
  - cbn [ret now fst snd].
    repeat match goal with
           | |- context [if ?b then _ else _] => destruct b
           end; eexists _, _; (split; [reflexivity|]); repeat split.
  - cbn. eexists _, _. split; [reflexivity|]. repeat split.
Qed.

(** The loop over the rows prints one row for each task of the list, in
    the order of the list, numbered from [start]. *)
Lemma rows_loop (l : list ref) (start : Z) (w : world) :
  exists (displays : list string) (w' : world),
    for_each (enumerate l start) (fun '(idx, task) =>
      t <- get task ;;
      let task_name := _truncate_name (name t) in
      deadline_display <- _get_deadline_display (deadline t) ;;
      let score_indicator := _get_score_indicator (score t) in
      print (Row idx score_indicator (score t) task_name (urgency t)
                 (importance t) deadline_display)) w
    = (Ok tt, w')
    /\ List.length displays = List.length l
    /\ stdout w'
       = stdout w
         ++ map (fun '((idx, task), deadline_display) =>
                   row_of idx (heap w task) deadline_display)
                (combine (enumerate l start) displays)
    /\ heap w' = heap w /\ tasks w' = tasks w.
Proof.
  revert start w. induction l as [|task l IH]; intros start w.
  - exists [], w. cbn. rewrite app_nil_r. repeat split.
  - cbn [enumerate for_each]. unfold bind at 1. unfold bind at 1.
    unfold get at 1. unfold bind at 1.
    destruct (_get_deadline_display_total (deadline (heap w task)) w)
      as (s & w0 & E & Hh & Ht & Ho).
    rewrite E. unfold print at 1.
    match goal with
    | |- context [for_each _ _ ?w1] =>
        destruct (IH (start + 1) w1) as (ds & w' & El & Hl & Hs & Hh' & Ht')
    end.
    cbv zeta in El |- *. exists (s :: ds), w'. rewrite El.
    cbn [heap tasks stdout] in Hs, Hh', Ht'.
    split; [reflexivity|]. split; [cbn; lia|].
    split; [|split; congruence].
    rewrite Hs, Ho, Hh, <- app_assoc. reflexivity.
Qed.

(** [display_results] prints the header of the table, one row for each
    task that [select_tasks] gives, in that order and numbered from 1,
    and an empty line; it changes nothing else. *)
Lemma display_results_rows (top_n : option Z) (w : world) :
  exists (selected : list ref) (header : list line)
         (displays : list string) (w' : world),
    select_tasks top_n w = (Ok selected, w)
    /\ display_results top_n w = (Ok tt, w')
    /\ Forall is_text header
    /\ List.length displays = List.length selected
    /\ stdout w'
       = stdout w ++ header
         ++ map (fun '((idx, task), deadline_display) =>
                   row_of idx (heap w task) deadline_display)
                (combine (enumerate selected 1) displays)
         ++ [Text ""]
    /\ heap w' = heap w /\ tasks w' = tasks w.
Proof.
  assert (S : exists selected, select_tasks top_n w = (Ok selected, w)).
  { unfold select_tasks, bind. rewrite get_sorted_tasks_eq.
    destruct top_n as [n|]; [destruct (truthy (Some n))|];
      eexists; reflexivity. }
  destruct S as [selected S]. exists selected.
  unfold display_results. unfold bind at 1. rewrite S.
  set (title := match top_n with
                | Some n => if truthy top_n then _ else _
                | None => _
                end).
  assert (T : exists s, title = print (Text s)).
  { subst title. destruct top_n as [n|]; [destruct (truthy (Some n))|];
      eexists; reflexivity. }
  destruct T as [s ->].
  rewrite !bind_print.
  set (w1 := printed _ _).
  unfold bind at 1.
  destruct (rows_loop selected 1 w1) as (ds & w' & El & Hl & Hs & Hh & Ht).
  cbv zeta in El |- *. rewrite El.
  exists [Text ""; Text (repeat_string "─" TABLE_WIDTH); Text s;
          Text (repeat_string "─" TABLE_WIDTH); Text "";
          Text ("  " ++ ljust "Rank" 6 ++ ljust "Score" 10
                ++ ljust "Task Name" 35 ++ ljust "Urgency" 10
                ++ ljust "Importance" 12 ++ ljust "Deadline" 15)%string;
          Text ("  " ++ repeat_string "─" 6 ++ repeat_string "─" 10
                ++ repeat_string "─" 35 ++ repeat_string "─" 10
                ++ repeat_string "─" 12 ++ repeat_string "─" 15)%string],
    ds.
  eexists. split; [reflexivity|]. split; [reflexivity|].
  split; [repeat constructor|].
  split; [exact Hl|].
  unfold print. cbn [snd heap tasks stdout].
  split; [|split; assumption].
  rewrite Hs. subst w1. unfold printed, print. cbn [snd heap tasks stdout].
  rewrite <- !app_assoc. reflexivity.
Qed.


(** What [display_results] selects and prints: the first [n] tasks of
    the ranking for [n >= 1], all of them when [n] is the size of the
    collection or more; the whole ranking for [n = 0], as for [None];
    the ranking without its last [-n] tasks for a negative [n].  The
    rows printed are those of the selected tasks, in the order of the
    ranking and numbered from 1, and no exception is raised. *)
Lemma select_tasks_spec (w : world) (n : Z) :
  let ranking := sorted (fun t => score (heap w t)) (tasks w) true in
  (1 <= n ->
   select_tasks (Some n) w = (Ok (firstn (Z.to_nat n) ranking), w))
  /\ (1 <= n -> len (tasks w) <= n ->
      select_tasks (Some n) w = (Ok ranking, w))
  /\ (n = 0 -> select_tasks (Some n) w = (Ok ranking, w))
  /\ (n < 0 ->
      select_tasks (Some n) w
      = (Ok (firstn (Z.to_nat (len (tasks w) + n)) ranking), w))
  /\ select_tasks None w = (Ok ranking, w)
  /\ (forall top_n : option Z,
        exists (selected : list ref) (header : list line)
               (displays : list string) (w' : world),
          select_tasks top_n w = (Ok selected, w)
          /\ display_results top_n w = (Ok tt, w')
          /\ Forall is_text header
          /\ List.length displays = List.length selected
          /\ stdout w'
             = stdout w ++ header
               ++ map (fun '((idx, task), deadline_display) =>
                         row_of idx (heap w task) deadline_display)
                      (combine (enumerate selected 1) displays)
               ++ [Text ""]).
Proof.
  cbv zeta.
  assert (D : forall top_n : option Z,
             exists (selected : list ref) (header : list line)
                    (displays : list string) (w' : world),
               select_tasks top_n w = (Ok selected, w)
               /\ display_results top_n w = (Ok tt, w')
               /\ Forall is_text header
               /\ List.length displays = List.length selected
               /\ stdout w'
                  = stdout w ++ header
                    ++ map (fun '((idx, task), deadline_display) =>
                              row_of idx (heap w task) deadline_display)
                           (combine (enumerate selected 1) displays)
                    ++ [Text ""]).
  { intros top_n.
    destruct (display_results_rows top_n w)
      as (sel & hd & ds & w' & H1 & H2 & H3 & H4 & H5 & _).
    exists sel, hd, ds, w'. auto. }
  revert D.
  unfold select_tasks at 1 2 3 4 5, bind. rewrite get_sorted_tasks_eq.
  set (ranking := sorted _ _ true).
  assert (L : len ranking = len (tasks w)).
  { unfold len. f_equal. apply Permutation_length.
    apply (sorted_perm (fun t => score (heap w t))). }
  unfold truthy, slice_to, ret. intros D.
  split; [|split; [|split; [|split; [|split; [reflexivity|exact D]]]]].
  - intros H. destruct (Z.eqb_spec n 0); [lia|]. cbn [negb].
    destruct (Z.leb_spec 0 n); [reflexivity|lia].
  - intros H1 H2. destruct (Z.eqb_spec n 0); [lia|]. cbn [negb].
    destruct (Z.leb_spec 0 n); [|lia].
    rewrite firstn_all2; [reflexivity|]. unfold len in *. lia.
  - intros ->. reflexivity.
  - intros H. destruct (Z.eqb_spec n 0); [lia|]. cbn [negb].
    destruct (Z.leb_spec 0 n); [lia|]. now rewrite L.
Qed.

Example select_tasks_top_2_of_three :
  select_tasks (Some 3) three_task_world
  = (Ok [1; 0; 2]%nat, three_task_world)
  /\ select_tasks (Some 2) three_task_world
     = (Ok [1; 0]%nat, three_task_world).
Proof. split; reflexivity. Qed.

(** C3: with three tasks stored, [display_results] at [top_n = 0] takes
    the test [if top_n:] as false: it prints all three rows under the
    title of the full table; at [top_n = -1] it prints the title of a
    top -1 and the ranking without its last task, two rows.  The
    specification has no row in either case, and the docstring has "only
    show top N tasks" whenever [top_n] is provided. *)
Theorem display_results_nonpositive_top_n :
  select_tasks (Some 0) three_task_world
  = (Ok [1; 0; 2]%nat, three_task_world)
  /\ fst (display_results (Some 0) three_task_world) = Ok tt
  /\ stdout (snd (display_results (Some 0) three_task_world))
     = [Text "";
        Text (repeat_string "─" 100);
        Text "  📊 ALL TASKS (SORTED BY PRIORITY)";
        Text (repeat_string "─" 100);
        Text "";
        Text ("  Rank  Score     Task Name                          "
              ++ "Urgency   Importance  Deadline       ");
        Text ("  " ++ repeat_string "─" 88);
        Row 1 "🔴" (literal 99 10) "ship release" 10 10 "⚠️  OVERDUE";
        Row 2 "🟡" (literal 5 1) "file expenses" 5 5 "   Unknown";
        Row 3 "🟡" (literal 5 1) "book flights" 5 5 "   Unknown";
        Text ""]
  /\ select_tasks (Some (-1)) three_task_world
     = (Ok [1; 0]%nat, three_task_world)
  /\ fst (display_results (Some (-1)) three_task_world) = Ok tt
  /\ stdout (snd (display_results (Some (-1)) three_task_world))
     = [Text "";
        Text (repeat_string "─" 100);
        Text "  🎯 TOP -1 PRIORITY TASKS";
        Text (repeat_string "─" 100);
        Text "";
        Text ("  Rank  Score     Task Name                          "
              ++ "Urgency   Importance  Deadline       ");
        Text ("  " ++ repeat_string "─" 88);
        Row 1 "🔴" (literal 99 10) "ship release" 10 10 "⚠️  OVERDUE";
        Row 2 "🟡" (literal 5 1) "file expenses" 5 5 "   Unknown";
        Text ""].
Proof. repeat split; vm_compute; reflexivity. Qed.

(** Scenario D: the top 3 of two tasks are both tasks, ranked. *)
Example top_3_of_two_tasks :
  select_tasks (Some 3) two_task_world = (Ok [1; 0]%nat, two_task_world)
  /\ fst (display_results (Some 3) two_task_world) = Ok tt
  /\ filter (fun l => match l with Text _ => false | _ => true end)
            (stdout (snd (display_results (Some 3) two_task_world)))
     = [Row 1 "🔴" (literal 99 10) "ship release" 10 10 "⚠️  OVERDUE";
        Row 2 "🟢" (literal 9 10) "water plants" 1 1 "   59 days"].
Proof. repeat split; vm_compute; reflexivity. Qed.
(** ** What scoring changes *)

Lemma same_but_score_refl (t : Task) : same_but_score t t.
Proof. repeat split. Qed.

Lemma same_but_score_trans (a b c : Task) :
  same_but_score a b -> same_but_score b c -> same_but_score a c.
Proof. unfold same_but_score. intuition congruence. Qed.

Lemma same_but_score_set (t : Task) (s : float) :
  same_but_score t (set_score t s).
Proof. repeat split. Qed.

(** The loop of [score_all_tasks], over any list of references. *)
Lemma score_loop (l : list ref) (w w' : world) (r : result unit) :
  for_each l (fun task =>
    t <- get task ;;
    s <- calculate_task_score t ;;
    assign_score task s) w = (r, w') ->
  tasks w' = tasks w
  /\ next_ref w' = next_ref w
  /\ files w' = files w
  /\ (forall x, same_but_score (heap w x) (heap w' x))
  /\ (forall x, ~ In x l -> heap w' x = heap w x)
  /\ (r = Ok tt ->
      forall x, In x l \/ is_nan (score (heap w x)) = false ->
                is_nan (score (heap w' x)) = false)
  /\ (r = Ok tt ->
      forall x, In x l -> Z.abs (urgency (heap w x)) < overflow_threshold).
Proof.
  revert w w' r. induction l as [|task l IH]; intros w w' r.
  - cbn. intros [= <- <-]. repeat split; auto using same_but_score_refl.
    + intros _ x [[]|H]; exact H.
    + intros _ x [].
  - cbn [for_each]. unfold bind at 1. unfold bind at 1. unfold get at 1.
    unfold bind at 1.
    destruct (calculate_task_score_world (heap w task) w)
      as (df & w0 & Hdf & E & Hh & Ht & Hn & Hf).
    rewrite E.
    destruct (spec_score _ _ df _) as [s|e] eqn:Es.
    + unfold assign_score at 1.
      match goal with
      | |- for_each l ?body ?w1 = _ -> _ =>
          destruct (for_each l body w1) as [r1 w1'] eqn:El
      end.
      apply IH in El. cbn [tasks next_ref files heap] in El.
      destruct El as (Et & En & Efl & Es1 & Eh & Enan & Eu).
      intros [= <- <-].
      pose proof (wf_not_nan _ (spec_score_wf _ _ _ _ _ Hdf Es)) as Hs.
      assert (Hu : Z.abs (urgency (heap w task)) < overflow_threshold).
      { assert (O : exists v, spec_score (urgency (heap w task))
                       (importance (heap w task)) df
                       (calculate_effort_efficiency (effort (heap w task)))
                     = Ok v) by eauto.
        apply spec_score_ok in O; [tauto|exact Hdf]. }
      rewrite Hh in *.
      split; [congruence|]. split; [congruence|]. split; [congruence|].
      split; [|split; [|split]].
      * intros x. eapply same_but_score_trans; [|apply Es1].
        destruct (Nat.eqb x task) eqn:Ex;
          [|apply same_but_score_refl].
        apply Nat.eqb_eq in Ex. subst x. apply same_but_score_set.
      * intros x Hx. rewrite Eh by (intros H; apply Hx; now right).
        destruct (Nat.eqb_spec x task) as [->|]; [|reflexivity].
        exfalso. apply Hx. now left.
      * intros Hr x Hx. apply (Enan Hr).
        destruct (in_dec Nat.eq_dec x l) as [I|I]; [now left|right].
        destruct (Nat.eqb_spec x task) as [->|N]; [exact Hs|].
        destruct Hx as [[Hx|Hx]|Hx]; [congruence|contradiction|exact Hx].
      * intros Hr x [<-|Hx]; [exact Hu|].
        specialize (Eu Hr x Hx). cbv beta in Eu.
        destruct (Nat.eqb_spec x task) as [Ex|N];
          [rewrite Ex; exact Hu|exact Eu].
    + intros [= <- <-]. rewrite Hh.
      repeat split; auto using same_but_score_refl; discriminate.
Qed.

Lemma score_all_tasks_loop (w : world) :
  exists (r : result unit) (w1 : world),
    for_each (tasks w) (fun task =>
      t <- get task ;;
      s <- calculate_task_score t ;;
      assign_score task s) w = (r, w1)
    /\ (fst (score_all_tasks w) = Ok tt -> r = Ok tt)
    /\ tasks (snd (score_all_tasks w)) = tasks w1
    /\ heap (snd (score_all_tasks w)) = heap w1.
Proof.
  unfold score_all_tasks, bind, self_tasks.
  match goal with
  | |- context [for_each ?l ?body w] =>
      destruct (for_each l body w) as [r w1] eqn:E
  end.
  exists r, w1. split; [reflexivity|].
  destruct r as [[]|e]; cbn; repeat split; auto; discriminate.
Qed.

Lemma score_all_tasks_keeps_tasks (w : world) :
  tasks (snd (score_all_tasks w)) = tasks w.
Proof.
  destruct (score_all_tasks_loop w) as (r & w1 & E & _ & Et & _).
  apply score_loop in E. destruct E as (T1 & _). now rewrite Et.
Qed.

(** C10: [score_all_tasks], whether it ends normally or with an
    exception, leaves [self.tasks] the same list of the same objects
    (same length, same order), changes no field of any object other than
    its score, and changes nothing at all in an object that is not
    stored; [get_sorted_tasks] returns a list that holds the stored
    references, each as often as it is stored, and leaves the state
    (the stored list and every object) as it was. *)
Theorem score_all_tasks_frame :
  (forall w : world,
     let w' := snd (score_all_tasks w) in
     tasks w' = tasks w
     /\ List.length (tasks w') = List.length (tasks w)
     /\ (forall x : ref, same_but_score (heap w x) (heap w' x))
     /\ (forall x : ref, ~ In x (tasks w) -> heap w' x = heap w x))
  /\ (forall (w : world) (reverse : bool),
        exists l : list ref,
          get_sorted_tasks reverse w = (Ok l, w)
          /\ Permutation l (tasks w)).
Proof.
  split.
  - intros w. cbv zeta.
    destruct (score_all_tasks_loop w) as (r & w1 & E & _ & Et & Eh).
    apply score_loop in E. destruct E as (T1 & _ & _ & S1 & H1 & _).
    rewrite Et, Eh, T1. auto.
  - intros w reverse. eexists. split; [apply get_sorted_tasks_eq|].
    apply sorted_perm.
Qed.

(** After a scoring pass that ended normally the collection is scored,
    and the urgency of every stored task is within the range of the
    floats. *)
Lemma score_all_tasks_scored (w : world) :
  fst (score_all_tasks w) = Ok tt ->
  scored (snd (score_all_tasks w))
  /\ Forall (fun x => Z.abs (urgency (heap (snd (score_all_tasks w)) x))
                      < overflow_threshold)
            (tasks (snd (score_all_tasks w))).
Proof.
  intros H.
  destruct (score_all_tasks_loop w) as (r & w1 & E & Hr & Et & Eh).
  apply score_loop in E.
  destruct E as (T1 & _ & _ & S1 & _ & Hnan & Hu).
  specialize (Hr H). unfold scored. rewrite Et, Eh, T1.
  split; apply Forall_forall; intros x Hx.
  - apply (Hnan Hr). now left.
  - destruct (S1 x) as (_ & <- & _). now apply (Hu Hr).
Qed.

Lemma score_all_tasks_frame_witness :
  tasks (snd (score_all_tasks three_task_world)) = tasks three_task_world
  /\ heap (snd (score_all_tasks three_task_world)) 7%nat
     = heap three_task_world 7%nat.
Proof.
  destruct (proj1 score_all_tasks_frame three_task_world)
    as (H1 & _ & _ & H2).
  split; [exact H1|]. apply H2. cbn. lia.
Defined.

(** A scoring pass at noon of 2026-11-03 over the two tasks of the
    scenarios A and B. *)
Example score_all_tasks_example :
  let w' := snd (score_all_tasks two_task_world) in
  fst (score_all_tasks two_task_world) = Ok tt
  /\ map (fun x => score (heap w' x)) (tasks w')
     = [literal 90 100; literal 990 100]
  /\ stdout w' = [Text "  ✅ Scored 2 tasks"].
Proof. repeat split; vm_compute; reflexivity. Qed.

(** ** Statistics *)

Lemma comprehension_get (l : list ref) (w : world) :
  comprehension get l w = (Ok (map (heap w) l), w).
Proof.
  induction l as [|x l IH]; [reflexivity|].
  cbn [comprehension map]. unfold bind at 1. unfold get at 1.
  unfold bind at 1. rewrite IH. reflexivity.
Qed.

Lemma bucket_bounds : fle (literal 4 1) (literal 7 1) = true.
Proof. vm_compute. reflexivity. Qed.

(** A score that is a number is in exactly one bucket. *)
Lemma one_bucket (s : float) :
  is_nan s = false ->
  (is_high s = true /\ is_medium s = false /\ is_low s = false)
  \/ (is_high s = false /\ is_medium s = true /\ is_low s = false)
  \/ (is_high s = false /\ is_medium s = false /\ is_low s = true).
Proof.
  intros H. exact (three_way s _ _ H bucket_bounds).
Qed.

Lemma count_if_cons (p : float -> bool) (t : Task) (ts : list Task) :
  count_if p (t :: ts) = (if p (score t) then 1 else 0) + count_if p ts.
Proof.
  unfold count_if, len. cbn [filter]. destruct (p (score t)); [|lia].
  cbn [List.length]. lia.
Qed.

Lemma count_if_partition (ts : list Task) :
  Forall (fun t => is_nan (score t) = false) ts ->
  count_if is_high ts + count_if is_medium ts + count_if is_low ts = len ts.
Proof.
  induction 1 as [|t ts Ht _ IH]; [reflexivity|].
  rewrite !count_if_cons. unfold len in *. cbn [List.length].
  destruct (one_bucket _ Ht) as [(-> & -> & ->)|[(-> & -> & ->)|(-> & -> & ->)]];
    lia.
Qed.

(** The figures of the dict that [get_statistics] returns. *)
Lemma get_statistics_summary (w w' : world) (s : summary) :
  get_statistics w = (Ok (Summary s), w') ->
  w' = w
  /\ total_tasks s = len (tasks w)
  /\ high_priority_tasks s = count_if is_high (map (heap w) (tasks w))
  /\ medium_priority_tasks s = count_if is_medium (map (heap w) (tasks w))
  /\ low_priority_tasks s = count_if is_low (map (heap w) (tasks w)).
Proof.
  unfold get_statistics. unfold bind at 1. unfold self_tasks at 1.
  destruct (tasks w) as [|x l] eqn:El; [discriminate|].
  unfold bind at 1. rewrite comprehension_get.
  set (ts := map (heap w) (x :: l)).
  unfold bind, lift, ret.
  destruct (div_int _ _); [|discriminate].
  destruct (round _ 2); [|discriminate].
  destruct (max_float _); [|discriminate].
  destruct (min_float _); [|discriminate].
  destruct (int_true_div _ _); [|discriminate].
  destruct (round _ 2); [|discriminate].
  intros [= <- <-]. repeat split.
Qed.

Lemma sum_int_bound_aux (bound acc : Z) (xs : list Z) :
  Forall (fun x => Z.abs x <= bound) xs ->
  Z.abs (fold_left Z.add xs acc) <= Z.abs acc + len xs * bound.
Proof.
  intros H. revert acc. induction H as [|x xs Hx _ IH]; intros acc.
  - cbn. lia.
  - cbn [fold_left]. specialize (IH (acc + x)).
    unfold len in *. cbn [List.length]. lia.
Qed.

Lemma sum_int_bound (bound : Z) (xs : list Z) :
  Forall (fun x => Z.abs x <= bound) xs ->
  Z.abs (sum_int xs) <= len xs * bound.
Proof.
  intros H. pose proof (sum_int_bound_aux bound 0 xs H). unfold sum_int.
  cbn [Z.abs] in *. lia.
Qed.


(** [get_statistics] returns the figures when there is a task, the
    urgencies are within the range of the floats and the list is one
    that Python can hold. *)
Lemma get_statistics_returns (w : world) :
  tasks w <> [] ->
  len (tasks w) <= sys_maxsize ->
  Forall (fun x => Z.abs (urgency (heap w x)) < overflow_threshold)
         (tasks w) ->
  exists s : summary, get_statistics w = (Ok (Summary s), w).
Proof.
  intros Hne Hlen Hu.
  unfold get_statistics. unfold bind at 1. unfold self_tasks at 1.
  destruct (tasks w) as [|x l] eqn:El; [contradiction|].
  unfold bind at 1. rewrite comprehension_get.
  set (ts := map (heap w) (x :: l)).
  assert (L1 : 1 <= len (x :: l)) by (unfold len; cbn [List.length]; lia).
  assert (L2 : len (x :: l) < overflow_threshold).
  { assert (sys_maxsize < overflow_threshold) by reflexivity. lia. }
  assert (Ls : len (map score ts) = len (x :: l))
    by (unfold len, ts; now rewrite !length_map).
  assert (Lu : len (map urgency ts) = len (x :: l))
    by (unfold len, ts; now rewrite !length_map).
  rewrite Ls, Lu.
  destruct (div_int_ok (PyFloat.sum (map score ts)) (len (x :: l)) L1)
    as (mean & Em & Hm); [lia|].
  destruct (round_total mean 2 Hm) as (avg & Ea).
  assert (Hb : Z.abs (sum_int (map urgency ts))
               < len (x :: l) * overflow_threshold).
  { pose proof (sum_int_bound (overflow_threshold - 1) (map urgency ts)) as B.
    rewrite Lu in B.
    assert (0 < overflow_threshold) by reflexivity.
    enough (Z.abs (sum_int (map urgency ts))
            <= len (x :: l) * (overflow_threshold - 1)) by nia.
    apply B. unfold ts. rewrite map_map. apply Forall_map.
    eapply Forall_impl; [|exact Hu]. cbv beta. intros; lia. }
  destruct (int_true_div_ok _ _ L1 Hb) as (mu & Eu & Hmu).
  destruct (round_total mu 2 Hmu) as (avgu & Eau).
  unfold bind, lift, ret. rewrite Em, Ea.
  unfold ts at 1 2. cbn [map max_float min_float].
  rewrite Eu, Eau. eauto.
Qed.

(** The statistics after a scoring pass that ended normally. *)
Lemma statistics_after_scoring (w : world) :
  fst (score_all_tasks w) = Ok tt ->
  tasks w <> [] -> len (tasks w) <= sys_maxsize ->
  exists s : summary,
    get_statistics (snd (score_all_tasks w))
    = (Ok (Summary s), snd (score_all_tasks w))
    /\ total_tasks s = len (tasks w)
    /\ high_priority_tasks s + medium_priority_tasks s
       + low_priority_tasks s = total_tasks s.
Proof.
  intros H Hne Hl.
  destruct (score_all_tasks_scored w H) as [Hs Hu].
  pose proof (score_all_tasks_keeps_tasks w) as Et.
  destruct (get_statistics_returns (snd (score_all_tasks w)))
    as [s E]; [now rewrite Et|now rewrite Et|exact Hu|].
  exists s. split; [exact E|].
  destruct (get_statistics_summary _ _ _ E) as (_ & T & Hh & Hm & Hw).
  split; [now rewrite T, Et|].
  rewrite T, Hh, Hm, Hw, count_if_partition.
  - unfold len. now rewrite length_map.
  - apply Forall_map. exact Hs.
Qed.

Lemma count_if_refs (p : float -> bool) (w : world) (l : list ref) :
  count_if p (map (heap w) l)
  = len (filter (fun x => p (score (heap w x))) l).
Proof.
  unfold count_if, len. f_equal.
  induction l as [|x l IH]; [reflexivity|].
  cbn [map filter]. destruct (p (score (heap w x))); cbn [List.length];
    now rewrite IH.
Qed.

(** C7: in a non-empty scored collection every stored task satisfies
    exactly one of the three tests (high: score >= 7.0; medium:
    4.0 <= score < 7.0; low: score < 4.0).  Whenever [get_statistics]
    returns its figures, it has left the state as it was, the total is
    the number of stored tasks, each bucket count is the number of
    stored tasks that satisfy its test, and the three counts add up to
    the total.  It does return them when the urgencies are within the
    range of the floats and the list is one that Python can hold. *)
Theorem statistics_buckets_partition (w : world) :
  tasks w <> [] -> scored w ->
  (forall x : ref, In x (tasks w) ->
     let s := score (heap w x) in
     (fge s (literal 7 1) = true
      /\ (fle (literal 4 1) s && flt s (literal 7 1)) = false
      /\ flt s (literal 4 1) = false)
     \/ (fge s (literal 7 1) = false
         /\ (fle (literal 4 1) s && flt s (literal 7 1)) = true
         /\ flt s (literal 4 1) = false)
     \/ (fge s (literal 7 1) = false
         /\ (fle (literal 4 1) s && flt s (literal 7 1)) = false
         /\ flt s (literal 4 1) = true))
  /\ (forall (s : summary) (w' : world),
        get_statistics w = (Ok (Summary s), w') ->
        w' = w
        /\ total_tasks s = len (tasks w)
        /\ high_priority_tasks s
           = len (filter (fun x => fge (score (heap w x)) (literal 7 1))
                         (tasks w))
        /\ medium_priority_tasks s
           = len (filter (fun x => fle (literal 4 1) (score (heap w x))
                                   && flt (score (heap w x)) (literal 7 1))
                         (tasks w))
        /\ low_priority_tasks s
           = len (filter (fun x => flt (score (heap w x)) (literal 4 1))
                         (tasks w))
        /\ high_priority_tasks s + medium_priority_tasks s
           + low_priority_tasks s = total_tasks s)
  /\ (len (tasks w) <= sys_maxsize ->
      Forall (fun x => Z.abs (urgency (heap w x)) < overflow_threshold)
             (tasks w) ->
      exists s : summary, get_statistics w = (Ok (Summary s), w)).
Proof.
  intros Hne Hs.
  split; [|split].
  - intros x Hx. cbv zeta. apply (three_way _ _ _) ; [|exact bucket_bounds].
    unfold scored in Hs. rewrite Forall_forall in Hs. now apply Hs.
  - intros s w' H. apply get_statistics_summary in H.
    destruct H as (-> & Ht & Hh & Hm & Hl).
    assert (P : count_if is_high (map (heap w) (tasks w))
                + count_if is_medium (map (heap w) (tasks w))
                + count_if is_low (map (heap w) (tasks w))
                = len (tasks w)).
    { rewrite count_if_partition.
      - unfold len. now rewrite length_map.
      - apply Forall_map. exact Hs. }
    rewrite Ht, Hh, Hm, Hl.
    split; [reflexivity|]. split; [reflexivity|].
    split; [apply (count_if_refs is_high)|].
    split; [apply (count_if_refs is_medium)|].
    split; [apply (count_if_refs is_low)|exact P].
  - intros Hl Hu. exact (get_statistics_returns w Hne Hl Hu).
Qed.

Lemma statistics_buckets_partition_witness :
  exists s : summary,
    get_statistics three_task_world = (Ok (Summary s), three_task_world)
    /\ total_tasks s = 3 /\ high_priority_tasks s = 1
    /\ medium_priority_tasks s = 2 /\ low_priority_tasks s = 0.
Proof.
  assert (H : scored three_task_world)
    by (repeat (constructor; [reflexivity|]); constructor).
  pose proof (statistics_buckets_partition three_task_world
                ltac:(discriminate) H) as (_ & F & R).
  destruct R as [s E].
  - vm_compute. discriminate.
  - repeat (constructor; [reflexivity|]); constructor.
  - exists s. split; [exact E|].
    destruct (F s _ E) as (_ & Ht & Hh & Hm & Hl & _).
    rewrite Ht, Hh, Hm, Hl. repeat split.
Defined.

Example get_statistics_example :
  exists s : summary,
    fst (get_statistics three_task_world) = Ok (Summary s)
    /\ total_tasks s = 3 /\ high_priority_tasks s = 1
    /\ medium_priority_tasks s = 2 /\ low_priority_tasks s = 0
    /\ highest_score s = literal 99 10 /\ lowest_score s = literal 5 1
    /\ average_score s = literal 663 100
    /\ average_urgency s = literal 667 100.
Proof. eexists. split; [vm_compute; reflexivity|]. repeat split. Qed.

